(** * Version alignment auditor: [scripts/check-python-versions.py]

    A shallow embedding of the script and the properties of its version
    normaliser, its alignment checker, its system probe and its scraper of
    the geopandas diagnostic report.

    Python [str] values are modelled by [string]; a character is a code point
    below 256.  [None] is [None], a [str] is [Some s].  A [dict] is an
    association list in insertion order.  What an import or an accessor of
    a package does is a result in the error monad [res]: a value ([pyval]
    for what ends up in the table) or the exception raised. *)

From Stdlib Require Import Bool Arith Lia List Ascii String NArith ZArith.
Import ListNotations.
Open Scope string_scope.

(** ** Python string primitives used by the script *)

Module PyStr.

(** Line feed, the only character that [.] refuses without [re.DOTALL]. *)
Definition LF : ascii := "010"%char.

(** [str.isspace] on one character (code points below 256). *)
Definition isspace (c : ascii) : bool :=
  let n := N_of_ascii c in
  (((9 <=? n) && (n <=? 13)) || ((28 <=? n) && (n <=? 32))
   || (n =? 133) || (n =? 160))%N.

(** [str.lower] on one character (code points below 256). *)
Definition lower_char (c : ascii) : ascii :=
  let n := N_of_ascii c in
  if (((65 <=? n) && (n <=? 90))
      || ((192 <=? n) && (n <=? 222) && negb (n =? 215)))%N
  then ascii_of_N (n + 32) else c.

(** [s.lower()] *)
Fixpoint lower (s : string) : string :=
  match s with
  | EmptyString => EmptyString
  | String c s' => String (lower_char c) (lower s')
  end.

(** [s.lstrip()] *)
Fixpoint lstrip (s : string) : string :=
  match s with
  | EmptyString => EmptyString
  | String c s' => if isspace c then lstrip s' else s
  end.

(** [s.rstrip()] *)
Fixpoint rstrip (s : string) : string :=
  match s with
  | EmptyString => EmptyString
  | String c s' =>
      match rstrip s' with
      | EmptyString => if isspace c then EmptyString else String c EmptyString
      | r => String c r
      end
  end.

(** [s.strip()] *)
Definition strip (s : string) : string := rstrip (lstrip s).

(** [s.startswith(p)] *)
Definition startswith (s p : string) : bool := String.prefix p s.

(** [sub in s] *)
Fixpoint contains (sub s : string) : bool :=
  String.prefix sub s
  || match s with
     | EmptyString => false
     | String _ s' => contains sub s'
     end.

(** [s.split(sep)] for a one-character separator: never empty, one more
    field than there are separators. *)
Fixpoint split (sep : ascii) (s : string) : list string :=
  match s with
  | EmptyString => [EmptyString]
  | String c s' =>
      if Ascii.eqb c sep then EmptyString :: split sep s'
      else match split sep s' with
           | h :: t => String c h :: t
           | [] => [String c EmptyString]
           end
  end.

(** [f"{v}"] for an optional string. *)
Definition fmt (v : option string) : string :=
  match v with
  | Some s => s
  | None => "None"
  end.

End PyStr.

(** ** The fragment of [re] used by [normalize_version] *)

Module Regex.
Import PyStr.

(** One-character matchers. *)
Inductive atom : Type :=
| Lit (c : ascii)              (* a literal character *)
| Class (cs : list ascii)      (* [...] *)
| Dot.                         (* . *)

Inductive regex : Type :=
| One (a : atom)               (* a *)
| Opt (a : atom)               (* a?  greedy *)
| Star (a : atom)              (* a*  greedy *)
| Eol                          (* $ without re.MULTILINE *)
| Cat (r1 r2 : regex).         (* r1 r2 *)

Definition char_eq (ignorecase : bool) (a c : ascii) : bool :=
  if ignorecase then Ascii.eqb (lower_char a) (lower_char c)
  else Ascii.eqb a c.

Definition atom_ok (ignorecase : bool) (a : atom) (c : ascii) : bool :=
  match a with
  | Lit x => char_eq ignorecase x c
  | Class cs => existsb (fun x => char_eq ignorecase x c) cs
  | Dot => negb (Ascii.eqb c LF)
  end.

(** [$]: at the end of the string, or just before a line feed that ends
    the string. *)
Definition at_eol (s : string) : bool :=
  match s with
  | EmptyString => true
  | String c EmptyString => Ascii.eqb c LF
  | _ => false
  end.

Section Matcher.
Variable ignorecase : bool.

(** Greedy [a*] followed by the continuation [k]: take as many
    characters as possible, give one back at a time while [k] fails.
    The result is the length of the whole match. *)
Fixpoint star (a : atom) (k : string -> option nat) (s : string)
  : option nat :=
  match s with
  | String c s' =>
      if atom_ok ignorecase a c then
        match star a k s' with
        | Some n => Some (S n)
        | None => k s
        end
      else k s
  | EmptyString => k s
  end.

(** Backtracking matcher in continuation-passing style.  [rmatch r s k]
    is the length of the first match, in the order Python tries them, of
    [r] followed by [k] at the start of [s]. *)
Fixpoint rmatch (r : regex) (s : string) (k : string -> option nat)
  : option nat :=
  match r with
  | One a =>
      match s with
      | String c s' =>
          if atom_ok ignorecase a c then option_map S (k s') else None
      | EmptyString => None
      end
  | Opt a =>
      match s with
      | String c s' =>
          if atom_ok ignorecase a c then
            match k s' with
            | Some n => Some (S n)
            | None => k s
            end
          else k s
      | EmptyString => k s
      end
  | Star a => star a k s
  | Eol => if at_eol s then k s else None
  | Cat r1 r2 => rmatch r1 s (fun s' => rmatch r2 s' k)
  end.

(** Length of the match of [r] anchored at the start of [s]. *)
Definition match_at (r : regex) (s : string) : option nat :=
  rmatch r s (fun _ => Some 0).

(** [re.sub(r, repl, s)]: scan left to right; [skip] counts the
    characters still covered by the match found last. *)
Fixpoint sub_scan (r : regex) (repl : string) (s : string) (skip : nat)
  : string :=
  match s with
  | EmptyString =>
      match skip, match_at r EmptyString with
      | 0, Some _ => repl
      | _, _ => EmptyString
      end
  | String c s' =>
      match skip with
      | S n => sub_scan r repl s' n
      | 0 =>
          match match_at r s with
          | Some (S n) => repl ++ sub_scan r repl s' n
          | Some 0 => repl ++ String c (sub_scan r repl s' 0)
          | None => String c (sub_scan r repl s' 0)
          end
      end
  end.
End Matcher.

Definition IGNORECASE : bool := true.

(** [re.sub(pattern, repl, string, flags)] *)
Definition re_sub (r : regex) (repl s : string) (flags : bool) : string :=
  sub_scan flags r repl s 0.

(** A literal word as a regex followed by [r]. *)
Fixpoint word (w : string) (r : regex) : regex :=
  match w with
  | EmptyString => r
  | String c w' => Cat (One (Lit c)) (word w' r)
  end.

(** [r'[-.]?dev.*$'] *)
Definition dev_pattern : regex :=
  Cat (Opt (Class ["-"%char; "."%char])) (word "dev" (Cat (Star Dot) Eol)).

(** [r'-.*$'] *)
Definition hyphen_pattern : regex :=
  Cat (One (Lit "-"%char)) (Cat (Star Dot) Eol).

End Regex.

(** ** The script *)

Module Script.
Import PyStr Regex.

(** *** Exceptions *)

Inductive exn : Type :=
| FileNotFoundError                      (* the binary is missing *)
| CalledProcessError (returncode : Z)    (* raised by [check=True] *)
| ImportError                            (* and ModuleNotFoundError *)
| AttributeError
| TypeError
| NameError
| OtherException (name : string).        (* anything else *)

Inductive res (A : Type) : Type :=
| Ret (a : A)
| Raise (e : exn).
Arguments Ret {A} a.
Arguments Raise {A} e.

Definition bind {A B : Type} (m : res A) (f : A -> res B) : res B :=
  match m with
  | Ret a => f a
  | Raise e => Raise e
  end.

(** [try: m  except: h] with a bare [except], which catches everything. *)
Definition try_except {A : Type} (m : res A) (h : res A) : res A :=
  match m with
  | Ret a => Ret a
  | Raise _ => h
  end.

Notation "x <- m ;; f" := (bind m (fun x => f))
  (at level 61, m at next level, right associativity).

(** *** System version probe *)

Record CompletedProcess : Type :=
  { returncode : Z; stdout : string }.

(** What starting a command does on the host: it raises, or the process
    runs to completion with a status and its captured output. *)
Definition host : Type := list string -> res CompletedProcess.

(** [subprocess.run(cmd, capture_output=True, text=True, check=check)] *)
Definition subprocess_run (spawn : host) (cmd : list string) (check : bool)
  : res CompletedProcess :=
  p <- spawn cmd ;;
  if check && negb (returncode p =? 0)%Z
  then Raise (CalledProcessError (returncode p))
  else Ret p.

Definition get_system_version (spawn : host) (cmd : list string)
  : res (option string) :=
  try_except
    (result <- subprocess_run spawn cmd true ;;
     Ret (Some (strip (stdout result))))
    (Ret None).

(** *** Version normaliser *)

Definition normalize_version (v : option string) : option string :=
  match v with
  | None => None
  | Some v =>
      let v := re_sub dev_pattern "" v IGNORECASE in
      let v := re_sub hyphen_pattern "" v false in
      Some v
  end.

(** *** Dictionaries, in insertion order *)

Definition dict (V : Type) : Type := list (string * V).

(** [d[k] = v] *)
Fixpoint dict_set {V : Type} (k : string) (v : V) (d : dict V) : dict V :=
  match d with
  | [] => [(k, v)]
  | (k', v') :: d' =>
      if String.eqb k' k then (k, v) :: d' else (k', v') :: dict_set k v d'
  end.

Definition keys {V : Type} (d : dict V) : list string := map fst d.

(** *** Package introspection *)

(** The three versions one package reports, when they are strings or
    absent. *)
Record Report : Type :=
  { GDAL : option string; PROJ : option string; GEOS : option string }.

(** What an accessor of a package can hand back: [None], a [str], or any
    other object (a tuple, a number, bytes).  Of such an object the script
    uses its truth value (in [v or '-']), [format(v, '<width')] (in the
    table) and [v.startswith('via ')], which raises for an object that is
    not a string. *)
Inductive pyval : Type :=
| PyNone
| PyStr (s : string)
| PyObj (truthy : bool) (format_left : nat -> res string) (startswith : exn).

(** One value of the [results] dictionary. *)
Record Row : Type :=
  { row_GDAL : pyval; row_PROJ : pyval; row_GEOS : pyval }.

(** The modules, as far as the script touches them.  Every call and every
    attribute access returns a value or raises; [hasattr] is [Some]/[None]
    around the accessor it guards. *)
Record Osgeo : Type :=
  { gdal_VersionInfo : res pyval }.       (* gdal.VersionInfo('RELEASE_NAME') *)

Record Rasterio : Type :=
  { rasterio_gdal_version : res pyval;    (* rasterio.gdal_version() *)
    rasterio_proj_version : res pyval }.  (* rasterio.proj_version() *)

Record Fiona : Type :=
  { fiona_gdal_version : res pyval;              (* fiona.gdal_version() *)
    fiona_proj_version : option (res pyval) }.   (* fiona.proj_version() *)

Record Pyogrio : Type :=
  { pyogrio_get_gdal_version_string : option (res pyval);
    pyogrio_gdal_version : res pyval }.   (* pyogrio.__gdal_version__ *)

Record Pyproj : Type :=
  { proj_version_str : res pyval }.       (* pyproj.proj_version_str *)

Record Shapely : Type :=
  { geos_version_string : res pyval }.    (* shapely.geos_version_string *)

Record Geopandas : Type :=
  { show_versions : res string }.  (* what geopandas.show_versions() prints *)

(** The environment of one run: what the host does with a command, and what
    each [import] gives, a module or an exception. *)
Record Env : Type :=
  { spawn : host;
    osgeo : res Osgeo;
    rasterio : res Rasterio;
    fiona : res Fiona;
    pyogrio : res Pyogrio;
    pyproj : res Pyproj;
    shapely : res Shapely;
    geopandas : res Geopandas;
    rioxarray : res unit;
    odc_geo : res unit }.

(** State of the loop over the lines of the geopandas report. *)
Record gp_vars : Type :=
  { gp_gdal : option string; gp_proj : option string;
    gp_geos : option string }.

(** [parts[1].strip()] when [len(parts) >= 2], otherwise the variable
    keeps its value. *)
Definition second_part (line : string) (old : option string)
  : option string :=
  let parts := split ":"%char line in
  if (2 <=? List.length parts)%nat then Some (strip (nth 1 parts "")) else old.

(** One iteration of the loop. *)
Definition parse_line (st : gp_vars) (line : string) : gp_vars :=
  if startswith (strip line) "GDAL" then
    {| gp_gdal := second_part line (gp_gdal st);
       gp_proj := gp_proj st; gp_geos := gp_geos st |}
  else if startswith (strip line) "PROJ" then
    {| gp_gdal := gp_gdal st;
       gp_proj := second_part line (gp_proj st); gp_geos := gp_geos st |}
  else if startswith (strip line) "GEOS"
          && negb (contains "lib" (lower line)) then
    {| gp_gdal := gp_gdal st; gp_proj := gp_proj st;
       gp_geos := second_part line (gp_geos st) |}
  else st.

Definition parse_show_versions (gp_info : string) : gp_vars :=
  fold_left parse_line (split LF gp_info)
    {| gp_gdal := None; gp_proj := None; gp_geos := None |}.

Definition of_option (v : option string) : pyval :=
  match v with
  | Some s => PyStr s
  | None => PyNone
  end.

(** [except ImportError: pass] around a block that updates [results]. *)
Definition pass_ImportError (results : dict Row) (block : res (dict Row))
  : res (dict Row) :=
  match block with
  | Raise ImportError => Ret results
  | r => r
  end.

Definition probe_osgeo (env : Env) (results : dict Row) : res (dict Row) :=
  pass_ImportError results
    (m <- osgeo env ;;
     v <- gdal_VersionInfo m ;;
     Ret (dict_set "osgeo.gdal"
            {| row_GDAL := v; row_PROJ := PyNone; row_GEOS := PyNone |}
            results)).

Definition probe_rasterio (env : Env) (results : dict Row)
  : res (dict Row) :=
  match (m <- rasterio env ;;
         g <- rasterio_gdal_version m ;;
         p <- rasterio_proj_version m ;;
         Ret (dict_set "rasterio"
                {| row_GDAL := g; row_PROJ := p; row_GEOS := PyNone |}
                results)) with
  | Raise ImportError => Ret results
  | Raise AttributeError =>
      (* the name [rasterio] is bound only if the import went through *)
      m <- match rasterio env with
           | Ret m => Ret m
           | Raise _ => Raise NameError
           end ;;
      g <- rasterio_gdal_version m ;;
      Ret (dict_set "rasterio"
             {| row_GDAL := g; row_PROJ := PyNone; row_GEOS := PyNone |}
             results)
  | r => r
  end.

Definition probe_fiona (env : Env) (results : dict Row) : res (dict Row) :=
  pass_ImportError results
    (m <- fiona env ;;
     g <- fiona_gdal_version m ;;
     p <- match fiona_proj_version m with
          | Some call => call
          | None => Ret PyNone
          end ;;
     Ret (dict_set "fiona"
            {| row_GDAL := g; row_PROJ := p; row_GEOS := PyNone |}
            results)).

Definition probe_pyogrio (env : Env) (results : dict Row)
  : res (dict Row) :=
  match (m <- pyogrio env ;;
         g <- match pyogrio_get_gdal_version_string m with
              | Some call => call
              | None => pyogrio_gdal_version m
              end ;;
         Ret (dict_set "pyogrio"
                {| row_GDAL := g; row_PROJ := PyNone; row_GEOS := PyNone |}
                results)) with
  | Raise ImportError => Ret results
  | Raise AttributeError => Ret results
  | r => r
  end.

Definition probe_pyproj (env : Env) (results : dict Row) : res (dict Row) :=
  pass_ImportError results
    (m <- pyproj env ;;
     p <- proj_version_str m ;;
     Ret (dict_set "pyproj"
            {| row_GDAL := PyNone; row_PROJ := p; row_GEOS := PyNone |}
            results)).

Definition probe_shapely (env : Env) (results : dict Row)
  : res (dict Row) :=
  pass_ImportError results
    (m <- shapely env ;;
     v <- geos_version_string m ;;
     Ret (dict_set "shapely"
            {| row_GDAL := PyNone; row_PROJ := PyNone; row_GEOS := v |}
            results)).

Definition probe_geopandas (env : Env) (results : dict Row)
  : res (dict Row) :=
  pass_ImportError results
    (m <- geopandas env ;;
     gp_info <- show_versions m ;;
     let st := parse_show_versions gp_info in
     Ret (dict_set "geopandas"
            {| row_GDAL := of_option (gp_gdal st);
               row_PROJ := of_option (gp_proj st);
               row_GEOS := of_option (gp_geos st) |}
            results)).

Definition probe_rioxarray (env : Env) (results : dict Row)
  : res (dict Row) :=
  pass_ImportError results
    (_ <- rioxarray env ;;
     Ret (dict_set "rioxarray"
            {| row_GDAL := PyStr "via rasterio";
               row_PROJ := PyStr "via rasterio"; row_GEOS := PyNone |}
            results)).

Definition probe_odc_geo (env : Env) (results : dict Row)
  : res (dict Row) :=
  pass_ImportError results
    (_ <- odc_geo env ;;
     Ret (dict_set "odc-geo"
            {| row_GDAL := PyStr "via rasterio";
               row_PROJ := PyStr "via pyproj"; row_GEOS := PyNone |}
            results)).

(** The [results] dictionary after all the probes, unless one of them lets
    an exception through. *)
Definition collect (env : Env) : res (dict Row) :=
  results <- probe_osgeo env [] ;;
  results <- probe_rasterio env results ;;
  results <- probe_fiona env results ;;
  results <- probe_pyogrio env results ;;
  results <- probe_pyproj env results ;;
  results <- probe_shapely env results ;;
  results <- probe_geopandas env results ;;
  results <- probe_rioxarray env results ;;
  probe_odc_geo env results.

(** *** Alignment checker *)

Definition opt_eqb (a b : option string) : bool :=
  match a, b with
  | Some x, Some y => String.eqb x y
  | None, None => true
  | _, _ => false
  end.

(** The dictionary comprehension that drops [None] and ['via ...']. *)
Fixpoint actual_versions (pkg_versions : dict (option string))
  : dict string :=
  match pkg_versions with
  | [] => []
  | (pkg, v) :: rest =>
      match v with
      | Some s =>
          if negb (startswith s "via ") then (pkg, s) :: actual_versions rest
          else actual_versions rest
      | None => actual_versions rest
      end
  end.

Definition mismatch : Type := (string * string * option string)%type.

(** One iteration of the loop that fills [mismatches]. *)
Definition compare_one (system_norm : option string)
  (mismatches : list mismatch) (item : string * string) : list mismatch :=
  let (pkg, v) := item in
  let pkg_norm := normalize_version (Some v) in
  if negb (opt_eqb pkg_norm system_norm)
  then (mismatches ++ [(pkg, v, pkg_norm)])%list
  else mismatches.

(** What [check_alignment] returns, the list it built and the lines it
    printed. *)
Record AlignmentResult : Type :=
  { aligned : bool;
    mismatches : list mismatch;
    printed : list string }.

Definition differs_line (m : mismatch) : string :=
  let '(pkg, v, v_norm) := m in
  "  " ++ pkg ++ ": " ++ v ++ " (normalized: " ++ fmt v_norm ++ ") DIFFERS".

Definition check_alignment (lib_name : string) (system_ver : option string)
  (pkg_versions : dict (option string)) : AlignmentResult :=
  let actual := actual_versions pkg_versions in
  match actual with
  | [] =>
      {| aligned := true; mismatches := [];
         printed := [lib_name ++ ": No packages report version directly"] |}
  | _ :: _ =>
      let system_norm := normalize_version system_ver in
      let ms := fold_left (compare_one system_norm) actual [] in
      match ms with
      | [] =>
          {| aligned := true; mismatches := ms;
             printed := [lib_name ++ ": OK (all packages match system "
                           ++ fmt system_ver ++ ")"] |}
      | _ :: _ =>
          {| aligned := false; mismatches := ms;
             printed := (lib_name ++ ": MISMATCH!")
               :: ("  System: " ++ fmt system_ver ++ " (normalized: "
                     ++ fmt system_norm ++ ")")
               :: map differs_line ms |}
      end
  end.

(** *** Verdict and exit code, for a table of strings *)

Definition column (f : Report -> option string) (results : dict Report)
  : dict (option string) :=
  map (fun '(pkg, v) => (pkg, f v)) results.

Record Outcome : Type :=
  { gdal_ok : AlignmentResult;
    proj_ok : AlignmentResult;
    geos_ok : AlignmentResult;
    exit_code : Z }.

Definition verdict (system_gdal system_proj system_geos : option string)
  (results : dict Report) : Outcome :=
  let gdal_versions := column GDAL results in
  let proj_versions := column PROJ results in
  let geos_versions := column GEOS results in
  let gdal_ok := check_alignment "GDAL" system_gdal gdal_versions in
  let proj_ok := check_alignment "PROJ" system_proj proj_versions in
  let geos_ok := check_alignment "GEOS" system_geos geos_versions in
  {| gdal_ok := gdal_ok; proj_ok := proj_ok; geos_ok := geos_ok;
     exit_code := if aligned gdal_ok && aligned proj_ok && aligned geos_ok
                  then 0%Z else 1%Z |}.

End Script.

(** ** The specification's wording, as definitions of its own

    These follow the text of the specification, not the script; the theorems
    below compare them with the definitions above. *)

Module Spec.
Import PyStr Script.

(** A string made of one line feed. *)
Definition newline : string := String LF EmptyString.

(** No line feed anywhere in the string. *)
Fixpoint single_line (s : string) : bool :=
  match s with
  | EmptyString => true
  | String c s' => negb (Ascii.eqb c LF) && single_line s'
  end.

(** The string starts with the case-insensitive literal "dev". *)
Definition starts_dev (s : string) : bool :=
  match s with
  | String a (String b (String c _)) =>
      Ascii.eqb (lower_char a) "d" && Ascii.eqb (lower_char b) "e"
      && Ascii.eqb (lower_char c) "v"
  | _ => false
  end.

Definition is_separator (c : ascii) : bool :=
  Ascii.eqb c "-" || Ascii.eqb c ".".

(** The pre-release marker: an optional separator, then "dev". *)
Definition starts_marker (s : string) : bool :=
  starts_dev s
  || match s with
     | String c s' => is_separator c && starts_dev s'
     | EmptyString => false
     end.

(** Remove the marker and everything after it. *)
Fixpoint strip_dev (s : string) : string :=
  if starts_marker s then EmptyString
  else match s with
       | EmptyString => EmptyString
       | String c s' => String c (strip_dev s')
       end.

(** Remove everything from the first hyphen onward. *)
Fixpoint strip_hyphen (s : string) : string :=
  match s with
  | EmptyString => EmptyString
  | String c s' =>
      if Ascii.eqb c "-" then EmptyString else String c (strip_hyphen s')
  end.

(** Normalisation as section 4.3 words it. *)
Definition normalize (s : string) : string := strip_hyphen (strip_dev s).

(** Some package that takes part in the comparison has a normalised
    version other than the normalised ground truth. *)
Definition misaligned (system_ver : option string)
  (pkg_versions : dict (option string)) : Prop :=
  exists pkg v,
    In (pkg, Some v) pkg_versions /\ startswith v "via " = false
    /\ normalize_version (Some v) <> normalize_version system_ver.

(** A reported value that stays out of the comparison. *)
Definition sentinel_or_absent (v : option string) : bool :=
  match v with
  | Some s => startswith s "via "
  | None => true
  end.

(** Only whitespace. *)
Fixpoint all_space (s : string) : bool :=
  match s with
  | EmptyString => true
  | String c s' => isspace c && all_space s'
  end.

(** The three target libraries. *)
Inductive library : Type := lib_GDAL | lib_PROJ | lib_GEOS.

Definition lib_name (l : library) : string :=
  match l with
  | lib_GDAL => "GDAL"
  | lib_PROJ => "PROJ"
  | lib_GEOS => "GEOS"
  end.

Definition gp_var (l : library) (st : gp_vars) : option string :=
  match l with
  | lib_GDAL => gp_gdal st
  | lib_PROJ => gp_proj st
  | lib_GEOS => gp_geos st
  end.

(** The text after the first occurrence of [sep], if there is one. *)
Fixpoint after_first (sep : ascii) (s : string) : option string :=
  match s with
  | EmptyString => None
  | String c s' => if Ascii.eqb c sep then Some s' else after_first sep s'
  end.

(** The text before the first occurrence of [sep], or all of it. *)
Fixpoint before_first (sep : ascii) (s : string) : string :=
  match s with
  | EmptyString => EmptyString
  | String c s' =>
      if Ascii.eqb c sep then EmptyString
      else String c (before_first sep s')
  end.

(** The line is one that the scan keeps for library [l]. *)
Definition selects (l : library) (line : string) : bool :=
  startswith (strip line) (lib_name l)
  && match l with
     | lib_GEOS => negb (contains "lib" (lower line))
     | _ => true
     end.

(** Section 4.2: split on the first colon, the value is the stripped
    remainder. *)
Definition remainder_value (line : string) : option string :=
  option_map strip (after_first ":" line).

(** The stripped text between the first colon and the next one (or the
    end of the line). *)
Definition second_field (line : string) : option string :=
  option_map (fun rest => strip (before_first ":" rest))
    (after_first ":" line).

(** The value of the last line that yields one. *)
Definition last_value (value : string -> option string)
  (lines : list string) : option string :=
  fold_left (fun acc line =>
               match value line with
               | Some x => Some x
               | None => acc
               end) lines None.

(** Section 4.2 for one library: the lines kept, each read by [value]. *)
Definition scan (value : string -> option string) (l : library)
  (gp_info : string) : option string :=
  last_value (fun line => if selects l line then value line else None)
    (split LF gp_info).

End Spec.

(** ** The table of reported versions *)

Module Table.
Import PyStr Script.

(** [c * n] *)
Fixpoint repeat_char (c : ascii) (n : nat) : string :=
  match n with
  | 0 => EmptyString
  | S n' => String c (repeat_char c n')
  end.

(** [f"{s:<width}"]: pad with spaces on the right, never cut. *)
Definition ljust (width : nat) (s : string) : string :=
  s ++ repeat_char " " (width - String.length s).

(** [v or '-']: [None] and the empty string are both falsy. *)
Definition or_dash (v : option string) : string :=
  match v with
  | Some (String c s) => String c s
  | Some EmptyString => "-"
  | None => "-"
  end.

(** [f"{a:<15} {b:<20} {c:<12} {d:<12}"] *)
Definition row (a b c d : string) : string :=
  ljust 15 a ++ " " ++ ljust 20 b ++ " " ++ ljust 12 c ++ " " ++ ljust 12 d.

(** The lines printed under "Print results". *)
Definition print_results (results : dict Report) : list string :=
  "Package-reported versions:"
  :: row "Package" "GDAL" "PROJ" "GEOS"
  :: row (repeat_char "-" 15) (repeat_char "-" 20) (repeat_char "-" 12)
       (repeat_char "-" 12)
  :: map (fun '(pkg, versions) =>
            let gdal_v := or_dash (GDAL versions) in
            let proj_v := or_dash (PROJ versions) in
            let geos_v := or_dash (GEOS versions) in
            row pkg gdal_v proj_v geos_v) results.

End Table.

(** ** The whole run *)

Module Run.
Import PyStr Script Table.

(** [v or '-'] *)
Definition or_dash_val (v : pyval) : pyval :=
  match v with
  | PyNone => PyStr "-"
  | PyStr s => PyStr (or_dash (Some s))
  | PyObj truthy _ _ => if truthy then v else PyStr "-"
  end.

(** [f"{v:<width}"].  [None] rejects a format specification. *)
Definition format_cell (width : nat) (v : pyval) : res string :=
  match v with
  | PyStr s => Ret (ljust width s)
  | PyNone => Raise TypeError
  | PyObj _ format_left _ => format_left width
  end.

(** One pass of the loop that prints the table. *)
Definition row_line (pkg : string) (versions : Row) : res string :=
  let gdal_v := or_dash_val (row_GDAL versions) in
  let proj_v := or_dash_val (row_PROJ versions) in
  let geos_v := or_dash_val (row_GEOS versions) in
  b <- format_cell 20 gdal_v ;;
  c <- format_cell 12 proj_v ;;
  d <- format_cell 12 geos_v ;;
  Ret (ljust 15 pkg ++ " " ++ b ++ " " ++ c ++ " " ++ d).

Fixpoint row_lines (results : dict Row) : res (list string) :=
  match results with
  | [] => Ret []
  | (pkg, versions) :: rest =>
      line <- row_line pkg versions ;;
      lines <- row_lines rest ;;
      Ret (line :: lines)
  end.

(** The lines printed under "Print results", unless a value rejects its
    format specification. *)
Definition print_rows (results : dict Row) : res (list string) :=
  lines <- row_lines results ;;
  Ret ("Package-reported versions:"
       :: row "Package" "GDAL" "PROJ" "GEOS"
       :: row (repeat_char "-" 15) (repeat_char "-" 20) (repeat_char "-" 12)
            (repeat_char "-" 12)
       :: lines).

(** [{pkg: v['GDAL'] for pkg, v in results.items()}] and its two siblings. *)
Definition raw_column (f : Row -> pyval) (results : dict Row) : dict pyval :=
  map (fun '(pkg, v) => (pkg, f v)) results.

(** [v is not None and not v.startswith('via ')] is evaluated for every
    value: on an object that is not a string the call raises. *)
Definition read_value (v : pyval) : res (option string) :=
  match v with
  | PyNone => Ret None
  | PyStr s => Ret (Some s)
  | PyObj _ _ e => Raise e
  end.

Fixpoint read_values (pkg_versions : dict pyval)
  : res (dict (option string)) :=
  match pkg_versions with
  | [] => Ret []
  | (pkg, v) :: rest =>
      s <- read_value v ;;
      rest' <- read_values rest ;;
      Ret ((pkg, s) :: rest')
  end.

(** [check_alignment] on the values as the probes left them. *)
Definition check_alignment_raw (lib_name : string)
  (system_ver : option string) (pkg_versions : dict pyval)
  : res AlignmentResult :=
  vs <- read_values pkg_versions ;;
  Ret (check_alignment lib_name system_ver vs).

(** The script from top to bottom.  It ends with [sys.exit(code)], or with
    the exception that nothing caught. *)
Definition main (env : Env) : res Outcome :=
  system_gdal <- get_system_version (spawn env) ["gdal-config"; "--version"] ;;
  system_proj <-
    get_system_version (spawn env) ["pkg-config"; "--modversion"; "proj"] ;;
  system_geos <- get_system_version (spawn env) ["geos-config"; "--version"] ;;
  results <- collect env ;;
  _ <- print_rows results ;;
  let gdal_versions := raw_column row_GDAL results in
  let proj_versions := raw_column row_PROJ results in
  let geos_versions := raw_column row_GEOS results in
  gdal_ok <- check_alignment_raw "GDAL" system_gdal gdal_versions ;;
  proj_ok <- check_alignment_raw "PROJ" system_proj proj_versions ;;
  geos_ok <- check_alignment_raw "GEOS" system_geos geos_versions ;;
  Ret {| gdal_ok := gdal_ok; proj_ok := proj_ok; geos_ok := geos_ok;
         exit_code := if aligned gdal_ok && aligned proj_ok && aligned geos_ok
                      then 0%Z else 1%Z |}.

(** The status the interpreter ends with: the argument of [sys.exit], or 1
    after an exception that nothing caught. *)
Definition exit_status (r : res Outcome) : Z :=
  match r with
  | Ret o => exit_code o
  | Raise _ => 1%Z
  end.

End Run.

(** ** Notions used to state the further properties *)

Module Notions.
Import PyStr Script Spec Run.

(** The character does not occur in the string. *)
Fixpoint lacks (c : ascii) (s : string) : bool :=
  match s with
  | EmptyString => true
  | String x s' => negb (Ascii.eqb x c) && lacks c s'
  end.

(** The case-insensitive word "dev" occurs nowhere in the string. *)
Fixpoint dev_free (s : string) : bool :=
  negb (starts_dev s)
  && match s with
     | EmptyString => true
     | String _ s' => dev_free s'
     end.

(** The package a mismatch is about. *)
Definition mismatch_pkg (m : mismatch) : string := fst (fst m).

(** The names under which the script files its reports, in its order. *)
Definition package_names : list string :=
  ["osgeo.gdal"; "rasterio"; "fiona"; "pyogrio"; "pyproj"; "shapely";
   "geopandas"; "rioxarray"; "odc-geo"].

(** A value that is a string or absent. *)
Definition typed_value (v : pyval) : option (option string) :=
  match v with
  | PyNone => Some None
  | PyStr s => Some (Some s)
  | PyObj _ _ _ => None
  end.

(** A row whose three values are strings or absent. *)
Definition typed_row (r : Row) : option Report :=
  match typed_value (row_GDAL r), typed_value (row_PROJ r),
        typed_value (row_GEOS r) with
  | Some g, Some p, Some ge => Some {| GDAL := g; PROJ := p; GEOS := ge |}
  | _, _, _ => None
  end.

(** A table all of whose values are strings or absent. *)
Fixpoint typed_table (results : dict Row) : option (dict Report) :=
  match results with
  | [] => Some []
  | (pkg, r) :: rest =>
      match typed_row r, typed_table rest with
      | Some r', Some rest' => Some ((pkg, r') :: rest')
      | _, _ => None
      end
  end.

(** The row that the block of a package files under its name, if the block
    gets that far. *)
Definition filed_row (env : Env) (pkg : string) : option Row :=
  if String.eqb pkg "osgeo.gdal" then
    match osgeo env with
    | Ret m =>
        match gdal_VersionInfo m with
        | Ret v => Some {| row_GDAL := v; row_PROJ := PyNone;
                           row_GEOS := PyNone |}
        | Raise _ => None
        end
    | Raise _ => None
    end
  else if String.eqb pkg "rasterio" then
    match rasterio env with
    | Ret m =>
        match rasterio_gdal_version m, rasterio_proj_version m with
        | Ret g, Ret p => Some {| row_GDAL := g; row_PROJ := p;
                                  row_GEOS := PyNone |}
        | Ret g, Raise AttributeError =>
            Some {| row_GDAL := g; row_PROJ := PyNone; row_GEOS := PyNone |}
        | _, _ => None
        end
    | Raise _ => None
    end
  else if String.eqb pkg "fiona" then
    match fiona env with
    | Ret m =>
        match fiona_gdal_version m, fiona_proj_version m with
        | Ret g, Some (Ret p) => Some {| row_GDAL := g; row_PROJ := p;
                                         row_GEOS := PyNone |}
        | Ret g, None => Some {| row_GDAL := g; row_PROJ := PyNone;
                                 row_GEOS := PyNone |}
        | _, _ => None
        end
    | Raise _ => None
    end
  else if String.eqb pkg "pyogrio" then
    match pyogrio env with
    | Ret m =>
        match match pyogrio_get_gdal_version_string m with
              | Some call => call
              | None => pyogrio_gdal_version m
              end with
        | Ret g => Some {| row_GDAL := g; row_PROJ := PyNone;
                           row_GEOS := PyNone |}
        | Raise _ => None
        end
    | Raise _ => None
    end
  else if String.eqb pkg "pyproj" then
    match pyproj env with
    | Ret m =>
        match proj_version_str m with
        | Ret v => Some {| row_GDAL := PyNone; row_PROJ := v;
                           row_GEOS := PyNone |}
        | Raise _ => None
        end
    | Raise _ => None
    end
  else if String.eqb pkg "shapely" then
    match shapely env with
    | Ret m =>
        match geos_version_string m with
        | Ret v => Some {| row_GDAL := PyNone; row_PROJ := PyNone;
                           row_GEOS := v |}
        | Raise _ => None
        end
    | Raise _ => None
    end
  else if String.eqb pkg "geopandas" then
    match geopandas env with
    | Ret m =>
        match show_versions m with
        | Ret gp_info =>
            let st := parse_show_versions gp_info in
            Some {| row_GDAL := of_option (gp_gdal st);
                    row_PROJ := of_option (gp_proj st);
                    row_GEOS := of_option (gp_geos st) |}
        | Raise _ => None
        end
    | Raise _ => None
    end
  else if String.eqb pkg "rioxarray" then
    match rioxarray env with
    | Ret _ => Some {| row_GDAL := PyStr "via rasterio";
                       row_PROJ := PyStr "via rasterio"; row_GEOS := PyNone |}
    | Raise _ => None
    end
  else if String.eqb pkg "odc-geo" then
    match odc_geo env with
    | Ret _ => Some {| row_GDAL := PyStr "via rasterio";
                       row_PROJ := PyStr "via pyproj"; row_GEOS := PyNone |}
    | Raise _ => None
    end
  else None.

(** The table after the block of one package. *)
Definition file_row (env : Env) (results : dict Row) (pkg : string)
  : dict Row :=
  match filed_row env pkg with
  | Some r => dict_set pkg r results
  | None => results
  end.

(** The block of the package files a row. *)
Definition reports (env : Env) (pkg : string) : bool :=
  match filed_row env pkg with
  | Some _ => true
  | None => false
  end.


(** Canned hosts: no tool at all, and tools that all print one version. *)
Definition no_tools : host := fun _ => Raise FileNotFoundError.

Definition tools_print (v : string) : host :=
  fun _ => Ret {| returncode := 0; stdout := v ++ newline |}.

(** The osgeo bindings and pyproj, nothing else, on a host without tools. *)
Definition bindings_and_pyproj : Env :=
  {| spawn := no_tools;
     osgeo := Ret {| gdal_VersionInfo := Ret (PyStr "3.8.4") |};
     rasterio := Raise ImportError;
     fiona := Raise ImportError;
     pyogrio := Raise ImportError;
     pyproj := Ret {| proj_version_str := Ret (PyStr "9.3.1") |};
     shapely := Raise ImportError;
     geopandas := Raise ImportError;
     rioxarray := Raise ImportError;
     odc_geo := Raise ImportError |}.


End Notions.

Import PyStr Regex Script Spec Run.

(** * Properties *)

(** ** Strings *)

Section StringFacts.

Lemma single_line_append (s t : string) :
  single_line (s ++ t) = single_line s && single_line t.
Proof.
  induction s as [|c s IH]; simpl; [reflexivity|].
  rewrite IH. now rewrite andb_assoc.
Qed.

Lemma lstrip_split (s : string) :
  exists a, s = a ++ lstrip s /\ all_space a = true.
Proof.
  induction s as [|c s (a & E & Ha)].
  - exists "". split; reflexivity.
  - simpl. destruct (isspace c) eqn:Hc.
    + exists (String c a). simpl. rewrite Hc, Ha.
      split; [f_equal; exact E | reflexivity].
    + exists "". split; reflexivity.
Qed.

Lemma lstrip_head (s : string) :
  lstrip s = "" \/ exists c t, lstrip s = String c t /\ isspace c = false.
Proof.
  induction s as [|c s IH]; [now left|].
  simpl. destruct (isspace c) eqn:Hc; [exact IH|].
  right. exists c, s. split; [reflexivity | exact Hc].
Qed.

Lemma rstrip_cons (c : ascii) (s : string) :
  isspace c = false -> rstrip (String c s) = String c (rstrip s).
Proof. intro H. simpl. rewrite H. destruct (rstrip s); reflexivity. Qed.

Lemma rstrip_split (s : string) :
  exists b, s = rstrip s ++ b /\ all_space b = true.
Proof.
  induction s as [|c s (b & E & Hb)].
  - exists "". split; reflexivity.
  - simpl. destruct (rstrip s) as [|d r] eqn:R.
    + destruct (isspace c) eqn:Hc.
      * exists (String c b). simpl in E. simpl. rewrite Hc, Hb.
        split; [f_equal; exact E | reflexivity].
      * exists b. simpl in E. simpl. split; [f_equal; exact E | exact Hb].
    + exists b. split; [|exact Hb]. simpl. f_equal. exact E.
Qed.

Lemma rstrip_fixed (s : string) : rstrip (rstrip s) = rstrip s.
Proof.
  induction s as [|c s IH]; [reflexivity|].
  simpl. destruct (rstrip s) as [|d r] eqn:R.
  - destruct (isspace c) eqn:Hc; simpl; now rewrite ?Hc.
  - change (rstrip (String c (String d r)))
      with (match rstrip (String d r) with
            | "" => if isspace c then "" else String c ""
            | String _ _ as r' => String c r'
            end).
    rewrite IH. reflexivity.
Qed.

(** [strip] removes whitespace at both ends and nothing else, and leaves
    none at either end. *)
Lemma strip_split (s : string) :
  exists a b, s = a ++ strip s ++ b
              /\ all_space a = true /\ all_space b = true.
Proof.
  destruct (lstrip_split s) as (a & Ea & Ha).
  destruct (rstrip_split (lstrip s)) as (b & Eb & Hb).
  exists a, b. unfold strip. rewrite <- Eb. tauto.
Qed.

Lemma strip_trimmed (s : string) :
  lstrip (strip s) = strip s /\ rstrip (strip s) = strip s.
Proof.
  unfold strip. split; [|apply rstrip_fixed].
  destruct (lstrip_head s) as [E | (c & t & E & Hc)]; rewrite E.
  - reflexivity.
  - rewrite (rstrip_cons c t Hc). simpl. now rewrite Hc.
Qed.

End StringFacts.

(** ** The two patterns on a single-line string *)

Section RegexFacts.

Local Arguments lower_char : simpl never.
Local Arguments String.length : simpl nomatch.

Lemma rmatch_one (ic : bool) (a : atom) (r : regex) (c : ascii) (s : string)
  (k : string -> option nat) :
  rmatch ic (Cat (One a) r) (String c s) k
  = if atom_ok ic a c then option_map S (rmatch ic r s k) else None.
Proof. reflexivity. Qed.

(** [.*$] runs to the end of a string without line feed. *)
Lemma dot_star_eol (ic : bool) (s : string) :
  single_line s = true ->
  rmatch ic (Cat (Star Dot) Eol) s (fun _ => Some 0)
  = Some (String.length s).
Proof.
  simpl. induction s as [|c s IH]; simpl; intro H; [reflexivity|].
  apply andb_true_iff in H. destruct H as [Hc Hs].
  rewrite Hc, (IH Hs). reflexivity.
Qed.

Lemma char_eq_lit (x c : ascii) :
  lower_char x = x -> char_eq true x c = Ascii.eqb (lower_char c) x.
Proof. intro H. unfold char_eq. rewrite H. apply Ascii.eqb_sym. Qed.

(** ["dev.*$"], ignoring case. *)
Lemma dev_tail (s : string) :
  single_line s = true ->
  rmatch true (word "dev" (Cat (Star Dot) Eol)) s (fun _ => Some 0)
  = if starts_dev s then Some (String.length s) else None.
Proof.
  intro H. cbn [word].
  destruct s as [|a [|b [|c t]]]; try reflexivity;
    repeat (rewrite rmatch_one; cbn [atom_ok]);
    rewrite ?(char_eq_lit "d"), ?(char_eq_lit "e"), ?(char_eq_lit "v")
      by reflexivity;
    cbn [starts_dev].
  - destruct (Ascii.eqb (lower_char a) "d"); reflexivity.
  - destruct (Ascii.eqb (lower_char a) "d"); [|reflexivity].
    destruct (Ascii.eqb (lower_char b) "e"); reflexivity.
  - destruct (Ascii.eqb (lower_char a) "d"); [|reflexivity].
    destruct (Ascii.eqb (lower_char b) "e"); [|reflexivity].
    destruct (Ascii.eqb (lower_char c) "v"); [|reflexivity].
    cbn [andb]. simpl in H.
    repeat (apply andb_true_iff in H; destruct H as [_ H]).
    rewrite (dot_star_eol true t H). reflexivity.
Qed.

Lemma separator_class (c : ascii) :
  atom_ok true (Class ["-"%char; "."%char]) c = is_separator c.
Proof.
  destruct c as [[] [] [] [] [] [] [] []]; reflexivity.
Qed.

(** The first pattern matches at the start of a single-line string exactly
    when the marker is there, and then takes the whole string. *)
Lemma match_dev (s : string) :
  single_line s = true ->
  match_at true dev_pattern s
  = if starts_marker s then Some (String.length s) else None.
Proof.
  intro H. unfold match_at, dev_pattern, starts_marker.
  destruct s as [|c s'].
  - reflexivity.
  - change (rmatch true (Cat (Opt (Class ["-"%char; "."%char]))
                       (word "dev" (Cat (Star Dot) Eol)))
              (String c s') (fun _ => Some 0))
      with (if atom_ok true (Class ["-"%char; "."%char]) c
            then match rmatch true (word "dev" (Cat (Star Dot) Eol)) s'
                         (fun _ => Some 0) with
                 | Some n => Some (S n)
                 | None => rmatch true (word "dev" (Cat (Star Dot) Eol))
                             (String c s') (fun _ => Some 0)
                 end
            else rmatch true (word "dev" (Cat (Star Dot) Eol))
                   (String c s') (fun _ => Some 0)).
    rewrite separator_class.
    assert (Hs' : single_line s' = true)
      by (simpl in H; apply andb_true_iff in H; tauto).
    rewrite (dev_tail s' Hs'), (dev_tail (String c s') H).
    destruct (is_separator c) eqn:Hc.
    + assert (Hd : starts_dev (String c s') = false).
      { destruct s' as [|b [|d t]]; try reflexivity.
        cbn [starts_dev].
        replace (Ascii.eqb (lower_char c) "d") with false; [reflexivity|].
        revert Hc. clear.
        destruct c as [[] [] [] [] [] [] [] []]; intro; try reflexivity;
          discriminate. }
      rewrite Hd. cbn [orb andb].
      destruct (starts_dev s'); reflexivity.
    + cbn [andb]. rewrite orb_false_r. reflexivity.
Qed.

(** The second pattern matches at a hyphen, and then takes the whole
    single-line string. *)
Lemma match_hyphen (c : ascii) (s : string) :
  single_line (String c s) = true ->
  match_at false hyphen_pattern (String c s)
  = if Ascii.eqb c "-" then Some (String.length (String c s)) else None.
Proof.
  intro H. unfold match_at, hyphen_pattern.
  rewrite rmatch_one. cbn [atom_ok char_eq].
  rewrite (Ascii.eqb_sym "-" c).
  destruct (Ascii.eqb c "-"); [|reflexivity].
  assert (Hs : single_line s = true)
    by (simpl in H; apply andb_true_iff in H; tauto).
  rewrite (dot_star_eol false s Hs). reflexivity.
Qed.

(** Neither pattern has an empty match: each needs a literal character. *)
Lemma hyphen_pattern_nonempty (ic : bool) (s : string) :
  match_at ic hyphen_pattern s <> Some 0.
Proof.
  unfold match_at, hyphen_pattern. destruct s as [|c s]; [discriminate|].
  rewrite rmatch_one. destruct (atom_ok ic _ c); [|discriminate].
  destruct (rmatch ic _ s _); discriminate.
Qed.

Lemma dev_word_nonempty (ic : bool) (s : string) :
  rmatch ic (word "dev" (Cat (Star Dot) Eol)) s (fun _ => Some 0) <> Some 0.
Proof.
  cbn [word]. destruct s as [|c s]; [discriminate|].
  rewrite rmatch_one. destruct (atom_ok ic _ c); [|discriminate].
  destruct (rmatch ic _ s _); discriminate.
Qed.

Lemma dev_pattern_nonempty (ic : bool) (s : string) :
  match_at ic dev_pattern s <> Some 0.
Proof.
  unfold match_at, dev_pattern.
  change (rmatch ic (Cat (Opt (Class ["-"%char; "."%char]))
                       (word "dev" (Cat (Star Dot) Eol))) s
            (fun _ => Some 0))
    with (rmatch ic (Opt (Class ["-"%char; "."%char])) s
            (fun s' => rmatch ic (word "dev" (Cat (Star Dot) Eol)) s'
                         (fun _ => Some 0))).
  destruct s as [|c s]; cbn [rmatch]; [apply dev_word_nonempty|].
  destruct (atom_ok ic _ c); [|apply dev_word_nonempty].
  destruct (rmatch ic _ s _); [discriminate | apply dev_word_nonempty].
Qed.

(** Once a match covers the rest of the string, nothing more is emitted. *)
Lemma sub_scan_covered (ic : bool) (r : regex) (repl s : string) :
  match_at ic r "" = None ->
  sub_scan ic r repl s (String.length s) = "".
Proof.
  intro H. induction s as [|c s IH]; simpl; [now rewrite H | exact IH].
Qed.

Lemma re_sub_dev (s : string) :
  single_line s = true ->
  re_sub dev_pattern "" s IGNORECASE = strip_dev s.
Proof.
  unfold re_sub, IGNORECASE.
  induction s as [|c s IH]; intro H; [reflexivity|].
  cbn [sub_scan strip_dev]. rewrite (match_dev _ H).
  destruct (starts_marker (String c s)).
  - cbn [String.length append]. now apply sub_scan_covered.
  - rewrite IH; [reflexivity|].
    simpl in H. apply andb_true_iff in H. tauto.
Qed.

Lemma re_sub_hyphen (s : string) :
  single_line s = true ->
  re_sub hyphen_pattern "" s false = strip_hyphen s.
Proof.
  unfold re_sub.
  induction s as [|c s IH]; intro H; [reflexivity|].
  cbn [sub_scan strip_hyphen]. rewrite (match_hyphen _ _ H).
  destruct (Ascii.eqb c "-").
  - cbn [String.length append]. now apply sub_scan_covered.
  - rewrite IH; [reflexivity|].
    simpl in H. apply andb_true_iff in H. tauto.
Qed.

End RegexFacts.

(** ** The normaliser *)

Section NormalizeFacts.

Lemma strip_dev_prefix (s : string) : exists t, s = strip_dev s ++ t.
Proof.
  induction s as [|c s [t IH]].
  - exists "". reflexivity.
  - cbn [strip_dev]. destruct (starts_marker (String c s)).
    + exists (String c s). reflexivity.
    + exists t. simpl. congruence.
Qed.

Lemma strip_hyphen_prefix (s : string) : exists t, s = strip_hyphen s ++ t.
Proof.
  induction s as [|c s [t IH]].
  - exists "". reflexivity.
  - cbn [strip_hyphen]. destruct (Ascii.eqb c "-").
    + exists (String c s). reflexivity.
    + exists t. simpl. congruence.
Qed.

Lemma single_line_prefix (p t : string) :
  single_line (p ++ t) = true -> single_line p = true.
Proof.
  rewrite single_line_append. intro H. apply andb_true_iff in H. tauto.
Qed.

Lemma single_line_strip_dev (s : string) :
  single_line s = true -> single_line (strip_dev s) = true.
Proof.
  destruct (strip_dev_prefix s) as [t E]. rewrite E at 1.
  apply single_line_prefix.
Qed.

Lemma single_line_strip_hyphen (s : string) :
  single_line s = true -> single_line (strip_hyphen s) = true.
Proof.
  destruct (strip_hyphen_prefix s) as [t E]. rewrite E at 1.
  apply single_line_prefix.
Qed.

Lemma starts_dev_extend (p t : string) :
  starts_dev p = true -> starts_dev (p ++ t) = true.
Proof. destruct p as [|a [|b [|c p]]]; simpl; congruence. Qed.

(** A marker at the start of a string is still there when the string is
    extended. *)
Lemma starts_marker_extend (p t : string) :
  starts_marker p = true -> starts_marker (p ++ t) = true.
Proof.
  unfold starts_marker. intro H. apply orb_true_iff in H.
  apply orb_true_iff. destruct H as [H|H].
  - left. now apply starts_dev_extend.
  - right. destruct p as [|c p]; [discriminate|].
    apply andb_true_iff in H. destruct H as [Hc Hd].
    simpl. rewrite Hc. now apply starts_dev_extend.
Qed.

Lemma starts_marker_cut (c : ascii) (p t : string) :
  starts_marker (String c (p ++ t)) = false ->
  starts_marker (String c p) = false.
Proof.
  intro H. destruct (starts_marker (String c p)) eqn:E; [|reflexivity].
  apply (starts_marker_extend _ t) in E. simpl in E. congruence.
Qed.

Lemma strip_dev_fixed (s : string) : strip_dev (strip_dev s) = strip_dev s.
Proof.
  induction s as [|c s IH]; [reflexivity|].
  cbn [strip_dev]. destruct (starts_marker (String c s)) eqn:E.
  - reflexivity.
  - cbn [strip_dev]. destruct (strip_dev_prefix s) as [t Ht].
    rewrite Ht in E. rewrite (starts_marker_cut _ _ _ E), IH. reflexivity.
Qed.

(** Cutting at the first hyphen cannot bring a marker back. *)
Lemma strip_dev_strip_hyphen (u : string) :
  strip_dev u = u -> strip_dev (strip_hyphen u) = strip_hyphen u.
Proof.
  induction u as [|c u IH]; [reflexivity|].
  cbn [strip_dev]. destruct (starts_marker (String c u)) eqn:E;
    [discriminate|].
  intro H. injection H as H. cbn [strip_hyphen].
  destruct (Ascii.eqb c "-"); [reflexivity|].
  cbn [strip_dev]. destruct (strip_hyphen_prefix u) as [t Ht].
  rewrite Ht in E. rewrite (starts_marker_cut _ _ _ E), (IH H). reflexivity.
Qed.

Lemma strip_hyphen_fixed (s : string) :
  strip_hyphen (strip_hyphen s) = strip_hyphen s.
Proof.
  induction s as [|c s IH]; [reflexivity|].
  cbn [strip_hyphen]. destruct (Ascii.eqb c "-") eqn:E; [reflexivity|].
  cbn [strip_hyphen]. rewrite E, IH. reflexivity.
Qed.

Lemma normalize_fixed (s : string) :
  Spec.normalize (Spec.normalize s) = Spec.normalize s.
Proof.
  unfold Spec.normalize.
  rewrite (strip_dev_strip_hyphen (strip_dev s) (strip_dev_fixed s)).
  apply strip_hyphen_fixed.
Qed.

(** On a single-line string the two substitutions are the two cuts. *)
Lemma normalize_version_single_line (v : string) :
  single_line v = true ->
  normalize_version (Some v) = Some (Spec.normalize v).
Proof.
  intro H. unfold normalize_version, Spec.normalize.
  rewrite (re_sub_dev v H).
  rewrite (re_sub_hyphen _ (single_line_strip_dev v H)). reflexivity.
Qed.

Lemma single_line_normalize (v : string) :
  single_line v = true -> single_line (Spec.normalize v) = true.
Proof.
  intro H. apply single_line_strip_hyphen, single_line_strip_dev, H.
Qed.

End NormalizeFacts.

(** C3, as stated, fails on a version that carries a line feed: the marker
    goes, the line feed after it stays. *)
Lemma normalize_version_keeps_line_feed :
  normalize_version (Some ("3.8.0-dev3" ++ newline))
  <> Some (strip_hyphen (strip_dev ("3.8.0-dev3" ++ newline))).
Proof. vm_compute. discriminate. Qed.

(** C3 (amended): on every version string without a line feed,
    [normalize_version] first removes the leftmost case-insensitive "dev"
    marker, with one optional separator ([-] or [.]) before it, and all that
    follows, then removes everything from the first remaining hyphen onward;
    "3.8.0-dev3" and "3.8.0" both give "3.8.0", and "3.8.0-1-abc" is cut at
    its first hyphen, giving "3.8.0". *)
Theorem normalize_version_cuts (v : string) (H : single_line v = true) :
  normalize_version (Some v) = Some (strip_hyphen (strip_dev v))
  /\ normalize_version (Some "3.8.0-dev3") = Some "3.8.0"
  /\ normalize_version (Some "3.8.0") = Some "3.8.0"
  /\ normalize_version (Some "3.8.0-1-abc") = Some "3.8.0".
Proof.
  split; [exact (normalize_version_single_line v H)|].
  repeat split; reflexivity.
Qed.

Lemma normalize_version_cuts_witness :
  single_line "3.8.0.DEV-1" = true
  /\ normalize_version (Some "3.8.0.DEV-1") = Some "3.8.0".
Proof.
  split; [reflexivity|].
  exact (proj1 (normalize_version_cuts "3.8.0.DEV-1" eq_refl)).
Defined.

(** C4, as stated, fails on a two-line string: the first pass removes the
    second line, and only then does the marker on the first line stand at
    the end, where a second pass removes it. *)
Lemma normalize_version_not_idempotent :
  normalize_version
    (normalize_version (Some ("3.8.0dev" ++ newline ++ "dev")))
  <> normalize_version (Some ("3.8.0dev" ++ newline ++ "dev")).
Proof. vm_compute. discriminate. Qed.

Example normalize_version_two_passes :
  normalize_version (Some ("3.8.0dev" ++ newline ++ "dev"))
  = Some ("3.8.0dev" ++ newline)
  /\ normalize_version (Some ("3.8.0dev" ++ newline))
     = Some ("3.8.0" ++ newline).
Proof. split; reflexivity. Qed.

(** C4 (amended): normalisation is idempotent on absence and on every
    version string without a line feed:
    [normalize(normalize(v)) == normalize(v)]. *)
Theorem normalize_version_idempotent (v : option string)
  (H : forall s, v = Some s -> single_line s = true) :
  normalize_version (normalize_version v) = normalize_version v.
Proof.
  destruct v as [s|]; [|reflexivity].
  specialize (H s eq_refl).
  rewrite (normalize_version_single_line s H).
  rewrite (normalize_version_single_line _ (single_line_normalize s H)).
  now rewrite normalize_fixed.
Qed.

Lemma normalize_version_idempotent_witness :
  normalize_version (normalize_version (Some "3.8.0-dev3"))
  = normalize_version (Some "3.8.0-dev3").
Proof.
  apply (normalize_version_idempotent (Some "3.8.0-dev3")).
  intros s E. injection E as <-. reflexivity.
Defined.

(** C8: normalising an absent version yields absence. *)
Theorem normalize_version_none : normalize_version None = None.
Proof. reflexivity. Qed.

(** ** The alignment checker *)

Section AlignmentFacts.

Local Arguments normalize_version : simpl never.
Local Arguments opt_eqb : simpl never.

Lemma opt_eqb_eq (a b : option string) : opt_eqb a b = true <-> a = b.
Proof.
  destruct a as [x|], b as [y|]; unfold opt_eqb; try (split; congruence).
  rewrite String.eqb_eq. split; congruence.
Qed.

Lemma opt_eqb_neq (a b : option string) : opt_eqb a b = false <-> a <> b.
Proof.
  rewrite <- opt_eqb_eq. destruct (opt_eqb a b); split; congruence.
Qed.

(** The comprehension keeps exactly the present, non-sentinel values. *)
Lemma in_actual_versions (pkg_versions : dict (option string))
  (pkg v : string) :
  In (pkg, v) (actual_versions pkg_versions)
  <-> In (pkg, Some v) pkg_versions /\ startswith v "via " = false.
Proof.
  induction pkg_versions as [|[p o] rest IH]; simpl; [tauto|].
  destruct o as [s|].
  - destruct (startswith s "via ") eqn:E; simpl; rewrite IH.
    + split; [tauto|]. intros [[H|H] Hv]; [|tauto].
      injection H as -> ->. congruence.
    + split.
      * intros [H|H]; [injection H as -> ->; auto | tauto].
      * intros [[H|H] Hv]; [left; congruence | tauto].
  - rewrite IH. split; [tauto|]. intros [[H|H] Hv]; [discriminate | tauto].
Qed.

(** The comprehension only looks at the entries that are compared. *)
Lemma actual_versions_filter (pkg_versions : dict (option string)) :
  actual_versions
    (filter (fun item => negb (sentinel_or_absent (snd item))) pkg_versions)
  = actual_versions pkg_versions.
Proof.
  induction pkg_versions as [|[p o] rest IH]; [reflexivity|].
  destruct o as [s|]; simpl.
  - destruct (startswith s "via ") eqn:E; simpl; rewrite ?E; simpl;
      rewrite IH; reflexivity.
  - exact IH.
Qed.

(** The loop appends, in order, the entries that differ. *)
Lemma fold_compare_one (system_norm : option string)
  (items : dict string) (acc : list mismatch) :
  fold_left (compare_one system_norm) items acc
  = (acc ++ map (fun '(pkg, v) => (pkg, v, normalize_version (Some v)))
       (filter (fun '(pkg, v) =>
                  negb (opt_eqb (normalize_version (Some v)) system_norm))
          items))%list.
Proof.
  revert acc. induction items as [|[p v] items IH]; intro acc; simpl.
  - now rewrite app_nil_r.
  - rewrite IH. unfold compare_one.
    destruct (opt_eqb (normalize_version (Some v)) system_norm); simpl.
    + reflexivity.
    + now rewrite <- app_assoc.
Qed.

Lemma mismatches_eq (lib_name : string) (system_ver : option string)
  (pkg_versions : dict (option string)) :
  mismatches (check_alignment lib_name system_ver pkg_versions)
  = map (fun '(pkg, v) => (pkg, v, normalize_version (Some v)))
      (filter (fun '(pkg, v) =>
                 negb (opt_eqb (normalize_version (Some v))
                         (normalize_version system_ver)))
         (actual_versions pkg_versions)).
Proof.
  unfold check_alignment.
  destruct (actual_versions pkg_versions) as [|item items]; [reflexivity|].
  pose proof (fold_compare_one (normalize_version system_ver)
                (item :: items) []) as E.
  rewrite app_nil_l in E. rewrite <- E.
  destruct (fold_left _ _ _); reflexivity.
Qed.

(** The verdict is "pass" exactly when the list of mismatches is empty. *)
Lemma aligned_iff_no_mismatch (lib_name : string)
  (system_ver : option string) (pkg_versions : dict (option string)) :
  aligned (check_alignment lib_name system_ver pkg_versions) = true
  <-> mismatches (check_alignment lib_name system_ver pkg_versions) = [].
Proof.
  unfold check_alignment.
  destruct (actual_versions pkg_versions) as [|item items]; [easy|].
  destruct (fold_left _ _ _); simpl; split; congruence.
Qed.

Lemma in_mismatches (lib_name : string) (system_ver : option string)
  (pkg_versions : dict (option string)) (pkg v : string)
  (n : option string) :
  In (pkg, v, n) (mismatches (check_alignment lib_name system_ver pkg_versions))
  <-> In (pkg, Some v) pkg_versions /\ startswith v "via " = false
      /\ n = normalize_version (Some v)
      /\ n <> normalize_version system_ver.
Proof.
  rewrite mismatches_eq, in_map_iff. split.
  - intros [[p s] [E H]]. injection E as -> -> <-.
    apply filter_In in H. destruct H as [H Hd].
    apply in_actual_versions in H. apply negb_true_iff, opt_eqb_neq in Hd.
    tauto.
  - intros (Hin & Hv & -> & Hd). exists (pkg, v). split; [reflexivity|].
    apply filter_In. split.
    + apply in_actual_versions. tauto.
    + now apply negb_true_iff, opt_eqb_neq.
Qed.

Lemma misaligned_iff (lib_name : string) (system_ver : option string)
  (pkg_versions : dict (option string)) :
  aligned (check_alignment lib_name system_ver pkg_versions) = false
  <-> misaligned system_ver pkg_versions.
Proof.
  split.
  - intro H.
    destruct (mismatches (check_alignment lib_name system_ver pkg_versions))
      as [|[[p v] n] ms] eqn:E.
    + apply aligned_iff_no_mismatch in E. congruence.
    + assert (Hin : In (p, v, n)
                (mismatches
                   (check_alignment lib_name system_ver pkg_versions)))
        by (rewrite E; now left).
      apply in_mismatches in Hin. destruct Hin as (Hin & Hv & -> & Hd).
      exists p, v. tauto.
  - intros (p & v & Hin & Hv & Hd).
    destruct (aligned (check_alignment lib_name system_ver pkg_versions))
      eqn:E; [|reflexivity].
    apply aligned_iff_no_mismatch in E.
    assert (Hm : In (p, v, normalize_version (Some v))
               (mismatches
                  (check_alignment lib_name system_ver pkg_versions)))
      by (apply in_mismatches; tauto).
    rewrite E in Hm. destruct Hm.
Qed.

End AlignmentFacts.

(** C1: for any library name, ground truth and reported values, the
    mismatch list holds exactly the packages that report a literal version
    (present, not a sentinel) whose normalised form differs from the
    normalised ground truth, each with its raw and its normalised version;
    the check fails exactly when there is such a package, and passes with no
    mismatch exactly when every literal version normalises to the normalised
    ground truth. *)
Theorem check_alignment_exact (lib_name : string)
  (system_ver : option string) (pkg_versions : dict (option string)) :
  let r := check_alignment lib_name system_ver pkg_versions in
  (forall pkg v n,
      In (pkg, v, n) (mismatches r)
      <-> In (pkg, Some v) pkg_versions /\ startswith v "via " = false
          /\ n = normalize_version (Some v)
          /\ n <> normalize_version system_ver)
  /\ (aligned r = false <-> misaligned system_ver pkg_versions)
  /\ (aligned r = true /\ mismatches r = []
      <-> forall pkg v,
            In (pkg, Some v) pkg_versions -> startswith v "via " = false ->
            normalize_version (Some v) = normalize_version system_ver).
Proof.
  intro r. subst r. split; [|split].
  - intros pkg v n. apply in_mismatches.
  - apply misaligned_iff.
  - split.
    + intros [Ha _] pkg v Hin Hv.
      destruct (opt_eqb (normalize_version (Some v))
                  (normalize_version system_ver)) eqn:E.
      * now apply opt_eqb_eq.
      * apply opt_eqb_neq in E.
        assert (Hf : aligned
                       (check_alignment lib_name system_ver pkg_versions)
                     = false)
          by (apply misaligned_iff; exists pkg, v; tauto).
        congruence.
    + intro Hall.
      assert (Ha : aligned (check_alignment lib_name system_ver pkg_versions)
                   = true).
      { destruct (aligned _) eqn:E; [reflexivity|].
        apply misaligned_iff in E. destruct E as (pkg & v & Hin & Hv & Hd).
        elim Hd. exact (Hall pkg v Hin Hv). }
      split; [exact Ha | now apply aligned_iff_no_mismatch].
Qed.

(** With nothing to compare the check says so and passes. *)
Lemma nothing_to_compare (lib_name : string)
  (system_ver : option string) (pkg_versions : dict (option string)) :
  (forall pkg v, In (pkg, Some v) pkg_versions ->
                 startswith v "via " = true) ->
  check_alignment lib_name system_ver pkg_versions
  = {| aligned := true; mismatches := [];
       printed := [lib_name ++ ": No packages report version directly"] |}.
Proof.
  intro H. unfold check_alignment.
  destruct (actual_versions pkg_versions) as [|[p v] items] eqn:E;
    [reflexivity|].
  assert (Hin : In (p, v) (actual_versions pkg_versions))
    by (rewrite E; now left).
  apply in_actual_versions in Hin. destruct Hin as [Hin Hv].
  rewrite (H p v Hin) in Hv. discriminate.
Qed.

(** C5: when no package reports a literal version (every value is absent or
    a sentinel), the check prints that no package reports the version
    directly and passes, whatever the ground truth is. *)
Theorem check_alignment_no_data (lib_name : string)
  (system_ver : option string) (pkg_versions : dict (option string))
  (H : forall pkg v, In (pkg, Some v) pkg_versions ->
                     startswith v "via " = true) :
  check_alignment lib_name system_ver pkg_versions
  = {| aligned := true; mismatches := [];
       printed := [lib_name ++ ": No packages report version directly"] |}.
Proof. exact (nothing_to_compare lib_name system_ver pkg_versions H). Qed.

Lemma check_alignment_no_data_witness :
  check_alignment "GEOS" (Some "3.12.1")
    [("rasterio", None); ("rioxarray", Some "via rasterio")]
  = {| aligned := true; mismatches := [];
       printed := ["GEOS: No packages report version directly"] |}.
Proof.
  apply (check_alignment_no_data "GEOS" (Some "3.12.1")
           [("rasterio", None); ("rioxarray", Some "via rasterio")]).
  intros pkg v [E|[E|[]]]; [discriminate|].
  injection E as _ <-. reflexivity.
Defined.

(** C9: when the ground truth is absent and some package reports a literal
    version, every such package is recorded as a mismatch and the check
    fails: no normalised string equals the absent ground truth. *)
Theorem absent_ground_truth_fails (lib_name : string)
  (pkg_versions : dict (option string))
  (H : exists pkg v,
         In (pkg, Some v) pkg_versions /\ startswith v "via " = false) :
  let r := check_alignment lib_name None pkg_versions in
  aligned r = false
  /\ forall pkg v,
       In (pkg, Some v) pkg_versions -> startswith v "via " = false ->
       In (pkg, v, normalize_version (Some v)) (mismatches r).
Proof.
  intro r. subst r. split.
  - apply misaligned_iff. destruct H as (pkg & v & Hin & Hv).
    exists pkg, v. repeat split; try assumption. discriminate.
  - intros pkg v Hin Hv. apply in_mismatches.
    repeat split; try assumption. discriminate.
Qed.

Lemma absent_ground_truth_fails_witness :
  check_alignment "PROJ" None
    [("rasterio", Some "9.3.0"); ("odc-geo", Some "via pyproj")]
  = {| aligned := false;
       mismatches := [("rasterio", "9.3.0", Some "9.3.0")];
       printed := ["PROJ: MISMATCH!";
                   "  System: None (normalized: None)";
                   "  rasterio: 9.3.0 (normalized: 9.3.0) DIFFERS"] |}
  /\ aligned (check_alignment "PROJ" None
                [("rasterio", Some "9.3.0"); ("odc-geo", Some "via pyproj")])
     = false.
Proof.
  split; [reflexivity|].
  apply (absent_ground_truth_fails "PROJ"
           [("rasterio", Some "9.3.0"); ("odc-geo", Some "via pyproj")]).
  exists "rasterio", "9.3.0". split; [now left | reflexivity].
Defined.

(** C10: the check recognises a sentinel by the prefix "via " alone.  Every
    mismatch comes from a present value without that prefix, and the whole
    result (verdict, mismatches, printed lines) is the one obtained after
    deleting every absent value and every value with that prefix; a real
    version that begins with "via " is skipped, not compared. *)
Theorem sentinel_never_compared (lib_name : string)
  (system_ver : option string) (pkg_versions : dict (option string)) :
  (forall pkg v n,
      In (pkg, v, n)
         (mismatches (check_alignment lib_name system_ver pkg_versions)) ->
      In (pkg, Some v) pkg_versions /\ startswith v "via " = false)
  /\ check_alignment lib_name system_ver pkg_versions
     = check_alignment lib_name system_ver
         (filter (fun item => negb (sentinel_or_absent (snd item)))
            pkg_versions)
  /\ forall pkg rest,
       check_alignment lib_name system_ver [(pkg, Some ("via " ++ rest))]
       = {| aligned := true; mismatches := [];
            printed := [lib_name ++ ": No packages report version directly"]
         |}.
Proof.
  split; [|split].
  - intros pkg v n Hin. apply in_mismatches in Hin. tauto.
  - unfold check_alignment. now rewrite actual_versions_filter.
  - intros pkg rest. apply nothing_to_compare.
    intros p v [E|[]]. injection E as _ <-. destruct rest; reflexivity.
Qed.

(** ** The system probe and the exit code *)

(** C6: the probe never raises.  It returns the trimmed standard output
    when the command could be started and ended with status 0, and absence
    in every other case: the command could not be started (missing binary or
    any other exception) or ended with another status. *)
Theorem get_system_version_total (spawn : host) (cmd : list string) :
  get_system_version spawn cmd
  = Ret match spawn cmd with
        | Ret p =>
            if (returncode p =? 0)%Z then Some (strip (stdout p)) else None
        | Raise _ => None
        end.
Proof.
  unfold get_system_version, subprocess_run, bind, try_except.
  destruct (spawn cmd) as [p|e]; [|reflexivity].
  simpl. destruct (returncode p =? 0)%Z; reflexivity.
Qed.

(** The probe returns, whatever the host does. *)
Lemma get_system_version_returns (spawn : host) (cmd : list string) :
  exists v, get_system_version spawn cmd = Ret v.
Proof.
  unfold get_system_version, try_except.
  destruct (_ <- _ ;; _); eexists; reflexivity.
Qed.

Lemma exit_code_zero (sg sp sge : option string) (results : dict Report) :
  exit_code (verdict sg sp sge results) = 0%Z
  <-> aligned (check_alignment "GDAL" sg (column GDAL results)) = true
      /\ aligned (check_alignment "PROJ" sp (column PROJ results)) = true
      /\ aligned (check_alignment "GEOS" sge (column GEOS results)) = true.
Proof.
  unfold verdict. cbn [exit_code].
  destruct (aligned (check_alignment "GDAL" sg (column GDAL results)));
    destruct (aligned (check_alignment "PROJ" sp (column PROJ results)));
    destruct (aligned (check_alignment "GEOS" sge (column GEOS results)));
    cbn [andb]; intuition congruence.
Qed.

Lemma exit_code_range (sg sp sge : option string) (results : dict Report) :
  exit_code (verdict sg sp sge results) = 0%Z
  \/ exit_code (verdict sg sp sge results) = 1%Z.
Proof.
  unfold verdict. cbn [exit_code]. destruct (_ && _ && _); auto.
Qed.

(** ** The scan of the geopandas report *)

Section ParserFacts.

Local Arguments strip : simpl never.

(** [split] is the text before the first separator, then the split of what
    follows it. *)
Lemma split_first (sep : ascii) (s : string) :
  split sep s
  = before_first sep s
    :: match after_first sep s with
       | Some rest => split sep rest
       | None => []
       end.
Proof.
  induction s as [|c s IH]; [reflexivity|].
  simpl. destruct (Ascii.eqb c sep); [reflexivity|].
  rewrite IH. reflexivity.
Qed.

(** [parts[1].strip()], guarded by [len(parts) >= 2], is the second field
    when the line has a colon. *)
Lemma second_part_field (line : string) (old : option string) :
  second_part line old
  = match second_field line with
    | Some x => Some x
    | None => old
    end.
Proof.
  unfold second_part, second_field. rewrite split_first.
  destruct (after_first ":" line) as [rest|]; [|reflexivity].
  rewrite (split_first ":" rest). reflexivity.
Qed.

Lemma prefix_head (a : ascii) (p x : string) :
  String.prefix (String a p) x = true ->
  exists t, x = String a t /\ String.prefix p t = true.
Proof.
  destruct x as [|c x]; simpl; [discriminate|].
  destruct (ascii_dec a c) as [->|]; [|discriminate].
  intro H. now exists x.
Qed.

(** The three names differ within their first two letters, so at most one
    branch of the chain can fire. *)
Lemma startswith_other (x : string) (l1 l2 : library) :
  l1 <> l2 -> startswith x (lib_name l1) = true ->
  startswith x (lib_name l2) = false.
Proof.
  intros Hne H1. destruct (startswith x (lib_name l2)) eqn:H2;
    [|reflexivity].
  unfold startswith in *.
  destruct l1, l2; try congruence; simpl in H1, H2;
    apply prefix_head in H1; apply prefix_head in H2;
    destruct H1 as (t1 & -> & H1); destruct H2 as (t2 & E & H2);
    try discriminate E;
    injection E as <-;
    apply prefix_head in H1; apply prefix_head in H2;
    destruct H1 as (u1 & -> & H1); destruct H2 as (u2 & E & H2);
    discriminate E.
Qed.

(** One iteration, seen from one library. *)
Lemma parse_line_var (l : library) (st : gp_vars) (line : string) :
  gp_var l (parse_line st line)
  = match (if selects l line then second_field line else None) with
    | Some x => Some x
    | None => gp_var l st
    end.
Proof.
  unfold parse_line, selects.
  destruct (startswith (strip line) "GDAL") eqn:HG.
  - destruct l; cbn [gp_var gp_gdal gp_proj gp_geos lib_name].
    + rewrite HG, second_part_field. reflexivity.
    + now rewrite (startswith_other _ lib_GDAL lib_PROJ) by easy.
    + now rewrite (startswith_other _ lib_GDAL lib_GEOS) by easy.
  - destruct (startswith (strip line) "PROJ") eqn:HP.
    + destruct l; cbn [gp_var gp_gdal gp_proj gp_geos lib_name].
      * now rewrite HG.
      * rewrite HP, second_part_field. reflexivity.
      * now rewrite (startswith_other _ lib_PROJ lib_GEOS) by easy.
    + destruct (startswith (strip line) "GEOS") eqn:HE; cbn [andb].
      * destruct (contains "lib" (lower line)); cbn [negb];
          destruct l; cbn [gp_var gp_gdal gp_proj gp_geos lib_name];
          rewrite ?HG, ?HP, ?HE, ?second_part_field; reflexivity.
      * destruct l; cbn [gp_var gp_gdal gp_proj gp_geos lib_name];
          rewrite ?HG, ?HP, ?HE; reflexivity.
Qed.

Lemma parse_lines_var (l : library) (lines : list string) (st : gp_vars) :
  gp_var l (fold_left parse_line lines st)
  = fold_left (fun acc line =>
                 match (if selects l line then second_field line else None)
                 with
                 | Some x => Some x
                 | None => acc
                 end) lines (gp_var l st).
Proof.
  revert st. induction lines as [|line lines IH]; intro st; [reflexivity|].
  cbn [fold_left]. rewrite IH, parse_line_var. reflexivity.
Qed.

(** The loop computes, for each library, the value of the last line kept
    for it that has a colon. *)
Lemma parse_show_versions_scan (l : library) (gp_info : string) :
  gp_var l (parse_show_versions gp_info) = scan second_field l gp_info.
Proof.
  unfold parse_show_versions, scan, last_value.
  rewrite parse_lines_var. destruct l; reflexivity.
Qed.

Lemma fold_last_app (value : string -> option string)
  (l1 l2 : list string) (acc : option string) :
  fold_left (fun acc line =>
               match value line with
               | Some x => Some x
               | None => acc
               end) (l1 ++ l2) acc
  = fold_left (fun acc line =>
                 match value line with
                 | Some x => Some x
                 | None => acc
                 end) l2
      (fold_left (fun acc line =>
                    match value line with
                    | Some x => Some x
                    | None => acc
                    end) l1 acc).
Proof. apply fold_left_app. Qed.

Lemma fold_last_none (value : string -> option string)
  (lines : list string) (acc : option string) :
  (forall line, In line lines -> value line = None) ->
  fold_left (fun acc line =>
               match value line with
               | Some x => Some x
               | None => acc
               end) lines acc = acc.
Proof.
  revert acc. induction lines as [|line lines IH]; intros acc H;
    [reflexivity|].
  cbn [fold_left]. rewrite (H line) by now left.
  apply IH. intros line' Hin. apply H. now right.
Qed.

(** [last_value], said without a loop. *)
Lemma last_value_some (value : string -> option string)
  (lines : list string) (x : string) :
  last_value value lines = Some x
  <-> exists before line after,
        lines = (before ++ line :: after)%list /\ value line = Some x
        /\ forall line', In line' after -> value line' = None.
Proof.
  unfold last_value. split.
  - induction lines as [|line lines IH] using rev_ind; [discriminate|].
    rewrite fold_left_app. cbn [fold_left].
    destruct (value line) as [y|] eqn:E.
    + intro H. injection H as ->.
      exists lines, line, []. repeat split; [exact E|]. intros ? [].
    + intro H. destruct (IH H) as (before & line0 & after & -> & Hv & Ha).
      exists before, line0, (after ++ [line])%list. repeat split.
      * now rewrite <- app_assoc.
      * exact Hv.
      * intros line' Hin. apply in_app_or in Hin.
        destruct Hin as [Hin|[<-|[]]]; [now apply Ha | exact E].
  - intros (before & line & after & -> & Hv & Ha).
    rewrite fold_left_app. cbn [fold_left]. rewrite Hv.
    now apply fold_last_none.
Qed.

End ParserFacts.

(** C7, as stated, fails on a line with a second colon: the script keeps
    the text up to that colon, not the whole remainder. *)
Lemma parse_show_versions_second_colon :
  gp_var lib_PROJ
    (parse_show_versions "PROJ data dir: /usr/share/proj:/opt/proj")
  <> scan remainder_value lib_PROJ
       "PROJ data dir: /usr/share/proj:/opt/proj".
Proof. vm_compute. discriminate. Qed.

(** C7 (amended): the scan takes the report line by line.  The value kept
    for a library is that of the last line whose stripped form begins with
    the library's name, which for GEOS must not contain "lib" in any case,
    and which has a colon; the value is the stripped text between the first
    colon and the next colon or the end of the line.  Without such a line
    the value is absent. *)
Theorem parse_show_versions_last_line (gp_info : string) (l : library) :
  (forall x,
      gp_var l (parse_show_versions gp_info) = Some x
      <-> exists before line after,
            split LF gp_info = (before ++ line :: after)%list
            /\ startswith (strip line) (lib_name l) = true
            /\ (l = lib_GEOS -> contains "lib" (lower line) = false)
            /\ second_field line = Some x
            /\ forall line',
                 In line' after -> selects l line' = true ->
                 second_field line' = None)
  /\ (gp_var l (parse_show_versions gp_info) = None
      <-> forall line,
            In line (split LF gp_info) -> selects l line = true ->
            second_field line = None).
Proof.
  rewrite parse_show_versions_scan. unfold scan. split.
  - intro x. rewrite last_value_some. split.
    + intros (before & line & after & E & Hv & Ha).
      exists before, line, after. split; [exact E|].
      destruct (selects l line) eqn:Hs; [|discriminate].
      unfold selects in Hs. apply andb_true_iff in Hs. destruct Hs as [H1 H2].
      repeat split; try assumption.
      * intros ->. now apply negb_true_iff in H2.
      * intros line' Hin Hs'. specialize (Ha line' Hin).
        now rewrite Hs' in Ha.
    + intros (before & line & after & E & H1 & H2 & Hv & Ha).
      exists before, line, after. split; [exact E|].
      assert (Hs : selects l line = true).
      { unfold selects. rewrite H1. destruct l; try reflexivity.
        now rewrite H2. }
      rewrite Hs. split; [exact Hv|].
      intros line' Hin. destruct (selects l line') eqn:Hs'; [|reflexivity].
      now apply Ha.
  - split.
    + intros Hn line Hin Hs.
      destruct (second_field line) as [x|] eqn:Hv; [|reflexivity].
      apply in_split in Hin. destruct Hin as (l1 & l2 & E).
      unfold last_value in Hn. rewrite E, fold_left_app in Hn.
      cbn [fold_left] in Hn. rewrite Hs, Hv in Hn.
      set (f := fun (acc : option string) (line0 : string) =>
                  match (if selects l line0 then second_field line0
                         else None) with
                  | Some x0 => Some x0
                  | None => acc
                  end) in Hn.
      assert (Hsome : forall ls y, exists z, fold_left f ls (Some y) = Some z).
      { induction ls as [|a ls IHls]; intro y; [now exists y|].
        cbn [fold_left]. unfold f at 2.
        destruct (if selects l a then second_field a else None);
          apply IHls. }
      destruct (Hsome l2 x) as [z Hz]. congruence.
    + intro H. unfold last_value. apply fold_last_none.
      intros line Hin. destruct (selects l line) eqn:Hs; [|reflexivity].
      now apply H.
Qed.

(** * Further properties *)

Import Table Notions.

(** ** More on the normaliser *)

Section NormalizeMore.

Local Arguments lower_char : simpl never.

(** Substituting the empty string never makes a string longer. *)
Lemma sub_scan_length (ic : bool) (r : regex) (s : string) (skip : nat) :
  String.length (sub_scan ic r "" s skip) <= String.length s.
Proof.
  revert skip. induction s as [|c s IH]; intro skip.
  - simpl. destruct skip; [destruct (match_at ic r "")|]; simpl; lia.
  - cbn [sub_scan]. destruct skip as [|n].
    + destruct (match_at ic r (String c s)) as [[|n]|]; simpl.
      * specialize (IH 0). lia.
      * specialize (IH n). lia.
      * specialize (IH 0). lia.
    + specialize (IH n). simpl. lia.
Qed.

Lemma prefix_append (p t : string) : String.prefix p (p ++ t) = true.
Proof.
  induction p as [|c p IH]; simpl; [now destruct t|].
  destruct (ascii_dec c c); [exact IH | congruence].
Qed.

Lemma prefix_trans_append (p q t : string) :
  String.prefix p q = true -> String.prefix p (q ++ t) = true.
Proof.
  revert q. induction p as [|c p IH]; intros q H.
  - now destruct (q ++ t).
  - destruct q as [|d q]; [discriminate|]. simpl in *.
    destruct (ascii_dec c d); [now apply IH | discriminate].
Qed.

Lemma lacks_strip_hyphen (s : string) : lacks "-" (strip_hyphen s) = true.
Proof.
  induction s as [|c s IH]; [reflexivity|].
  simpl. destruct (Ascii.eqb c "-") eqn:E; [reflexivity|].
  simpl. now rewrite E.
Qed.

Lemma dev_free_prefix (p t : string) :
  dev_free (p ++ t) = true -> dev_free p = true.
Proof.
  induction p as [|c p IH]; [reflexivity|].
  cbn [dev_free append]. intro H. apply andb_true_iff in H.
  destruct H as [H1 H2]. apply andb_true_iff. split; [|now apply IH].
  apply negb_true_iff. apply negb_true_iff in H1.
  destruct (starts_dev (String c p)) eqn:E; [|reflexivity].
  apply (starts_dev_extend _ t) in E. cbn [append] in E. congruence.
Qed.

Lemma starts_marker_dev (s : string) :
  starts_marker s = false -> starts_dev s = false.
Proof. unfold starts_marker. intro H. now apply orb_false_iff in H. Qed.

Lemma dev_free_strip_dev (s : string) : dev_free (strip_dev s) = true.
Proof.
  induction s as [|c s IH]; [reflexivity|].
  cbn [strip_dev]. destruct (starts_marker (String c s)) eqn:E;
    [reflexivity|].
  cbn [dev_free]. rewrite IH, andb_true_r. apply negb_true_iff.
  destruct (strip_dev_prefix s) as [t Ht]. rewrite Ht in E.
  apply starts_marker_cut in E. now apply starts_marker_dev.
Qed.

(** Without "dev" the first substitution finds nothing to replace. *)
Lemma dev_word_fails (s : string) :
  starts_dev s = false ->
  rmatch true (word "dev" (Cat (Star Dot) Eol)) s (fun _ => Some 0) = None.
Proof.
  cbn [word].
  destruct s as [|a [|b [|c t]]]; try reflexivity;
    repeat (rewrite rmatch_one; cbn [atom_ok]);
    rewrite ?(char_eq_lit "d"), ?(char_eq_lit "e"), ?(char_eq_lit "v")
      by reflexivity;
    cbn [starts_dev]; intro H.
  - destruct (Ascii.eqb (lower_char a) "d"); reflexivity.
  - destruct (Ascii.eqb (lower_char a) "d"); [|reflexivity].
    destruct (Ascii.eqb (lower_char b) "e"); reflexivity.
  - destruct (Ascii.eqb (lower_char a) "d"); [|reflexivity].
    destruct (Ascii.eqb (lower_char b) "e"); [|reflexivity].
    destruct (Ascii.eqb (lower_char c) "v"); [discriminate|reflexivity].
Qed.

Lemma dev_free_head (s : string) : dev_free s = true -> starts_dev s = false.
Proof.
  destruct s; cbn [dev_free]; intro H; apply andb_true_iff in H;
    now apply negb_true_iff.
Qed.

Lemma re_sub_dev_free (s : string) :
  dev_free s = true -> re_sub dev_pattern "" s IGNORECASE = s.
Proof.
  unfold re_sub, IGNORECASE.
  induction s as [|c s IH]; intro H; [reflexivity|].
  assert (Hs : dev_free s = true)
    by (cbn [dev_free] in H; apply andb_true_iff in H; tauto).
  cbn [sub_scan].
  replace (match_at true dev_pattern (String c s)) with (@None nat).
  - now rewrite (IH Hs).
  - symmetry. unfold match_at, dev_pattern.
    change (rmatch true (Cat (Opt (Class ["-"%char; "."%char]))
                         (word "dev" (Cat (Star Dot) Eol)))
              (String c s) (fun _ => Some 0))
      with (if atom_ok true (Class ["-"%char; "."%char]) c
            then match rmatch true (word "dev" (Cat (Star Dot) Eol)) s
                         (fun _ => Some 0) with
                 | Some n => Some (S n)
                 | None => rmatch true (word "dev" (Cat (Star Dot) Eol))
                             (String c s) (fun _ => Some 0)
                 end
            else rmatch true (word "dev" (Cat (Star Dot) Eol))
                   (String c s) (fun _ => Some 0)).
    rewrite (dev_word_fails s (dev_free_head s Hs)).
    rewrite (dev_word_fails _ (dev_free_head _ H)).
    now destruct (atom_ok _ _ _).
Qed.

Lemma match_hyphen_none (c : ascii) (s : string) :
  Ascii.eqb c "-" = false -> match_at false hyphen_pattern (String c s) = None.
Proof.
  intro Hc. unfold match_at, hyphen_pattern. rewrite rmatch_one.
  cbn [atom_ok char_eq]. now rewrite (Ascii.eqb_sym "-" c), Hc.
Qed.

Lemma re_sub_hyphen_free (s : string) :
  lacks "-" s = true -> re_sub hyphen_pattern "" s false = s.
Proof.
  unfold re_sub.
  induction s as [|c s IH]; intro H; [reflexivity|].
  cbn [lacks] in H. apply andb_true_iff in H. destruct H as [Hc Hs].
  apply negb_true_iff in Hc.
  cbn [sub_scan]. rewrite (match_hyphen_none c s Hc).
  now rewrite (IH Hs).
Qed.

(** A hyphen cannot be part of "dev", so what follows a hyphen never
    decides whether a marker starts before it. *)
Lemma starts_marker_before_hyphen (c : ascii) (p x : string) :
  lacks "-" (String c p) = true ->
  starts_marker (String c (p ++ String "-" x)) = starts_marker (String c p).
Proof.
  intro H. unfold starts_marker.
  assert (Hd : forall q, lacks "-" q = true ->
                 starts_dev (q ++ String "-" x) = starts_dev q).
  { intros q Hq.
    destruct q as [|a [|b [|d q]]]; try reflexivity; cbn [append starts_dev].
    - destruct x as [|? [|? ?]]; reflexivity.
    - destruct x as [|? ?]; cbn [starts_dev];
        change (Ascii.eqb (lower_char "-") "d") with false;
        change (Ascii.eqb (lower_char "-") "e") with false;
        now rewrite ?andb_false_r.
    - change (Ascii.eqb (lower_char "-") "v") with false.
      now rewrite ?andb_false_r. }
  change (String c (p ++ String "-" x)) with (String c p ++ String "-" x).
  rewrite (Hd _ H). cbn [append].
  assert (Hp : lacks "-" p = true)
    by (cbn [lacks] in H; apply andb_true_iff in H; tauto).
  now rewrite (Hd _ Hp).
Qed.

Lemma normalize_hyphen_suffix (v x : string) :
  lacks "-" v = true ->
  Spec.normalize (v ++ String "-" x) = Spec.normalize v.
Proof.
  unfold Spec.normalize. induction v as [|c v IH]; intro H.
  - cbn [append strip_dev].
    destruct (starts_marker (String "-" x)); reflexivity.
  - cbn [append strip_dev]. rewrite (starts_marker_before_hyphen c v x H).
    destruct (starts_marker (String c v)); [reflexivity|].
    cbn [lacks] in H. apply andb_true_iff in H. destruct H as [Hc Hv].
    apply negb_true_iff in Hc. cbn [strip_hyphen]. rewrite Hc.
    now rewrite (IH Hv).
Qed.

Lemma lacks_single_line (s : string) : lacks LF s = single_line s.
Proof. induction s as [|c s IH]; simpl; congruence. Qed.

End NormalizeMore.

(** X1: normalising a version never makes it longer, whatever the string
    is. *)
Theorem normalize_version_not_longer (v : string) :
  exists n, normalize_version (Some v) = Some n
            /\ String.length n <= String.length v.
Proof.
  eexists. split; [reflexivity|]. unfold re_sub.
  etransitivity; apply sub_scan_length.
Qed.

(** X2: on a version without a line feed the result is a prefix of the
    version and contains neither a hyphen nor the word "dev" in any case. *)
Theorem normalize_version_clean (v : string) (H : single_line v = true) :
  exists n, normalize_version (Some v) = Some n
            /\ String.prefix n v = true
            /\ lacks "-" n = true /\ dev_free n = true.
Proof.
  exists (Spec.normalize v). split; [now apply normalize_version_single_line|].
  unfold Spec.normalize.
  destruct (strip_dev_prefix v) as [t Ht].
  destruct (strip_hyphen_prefix (strip_dev v)) as [u Hu].
  repeat split.
  - rewrite Ht at 2. apply prefix_trans_append.
    rewrite Hu at 2. apply prefix_append.
  - apply lacks_strip_hyphen.
  - apply (dev_free_prefix _ u). rewrite <- Hu. apply dev_free_strip_dev.
Qed.

Lemma normalize_version_clean_witness :
  exists n, normalize_version (Some "3.9.0-DEV-abc") = Some n
            /\ String.prefix n "3.9.0-DEV-abc" = true
            /\ lacks "-" n = true /\ dev_free n = true.
Proof. exact (normalize_version_clean "3.9.0-DEV-abc" eq_refl). Defined.

(** X3: a version with no hyphen and without the word "dev" in any case is
    returned unchanged, line feeds or not. *)
Theorem normalize_version_unchanged (v : string)
  (Hh : lacks "-" v = true) (Hd : dev_free v = true) :
  normalize_version (Some v) = Some v.
Proof.
  unfold normalize_version.
  now rewrite (re_sub_dev_free v Hd), (re_sub_hyphen_free v Hh).
Qed.

Lemma normalize_version_unchanged_witness :
  normalize_version (Some "9.3.0") = Some "9.3.0".
Proof.
  exact (normalize_version_unchanged "9.3.0" eq_refl eq_refl).
Defined.

(** X4: a hyphen and anything after it do not count: for a version [v]
    without hyphen, [v-x] normalises like [v] (no line feed in either). *)
Theorem normalize_version_ignores_build (v x : string)
  (Hv : single_line v = true) (Hx : single_line x = true)
  (Hh : lacks "-" v = true) :
  normalize_version (Some (v ++ "-" ++ x)) = normalize_version (Some v).
Proof.
  rewrite (normalize_version_single_line v Hv).
  rewrite normalize_version_single_line.
  - f_equal. now apply normalize_hyphen_suffix.
  - rewrite single_line_append, Hv. simpl. exact Hx.
Qed.

Lemma normalize_version_ignores_build_witness :
  normalize_version (Some ("3.8.0dev" ++ "-" ++ "1+b2"))
  = normalize_version (Some "3.8.0dev").
Proof.
  exact (normalize_version_ignores_build "3.8.0dev" "1+b2"
           eq_refl eq_refl eq_refl).
Defined.

(** ** More on the system probe *)

Section ProbeMore.

Lemma length_append (s t : string) :
  String.length (s ++ t) = String.length s + String.length t.
Proof. induction s as [|c s IH]; simpl; congruence. Qed.

Lemma get_system_version_cases (spawn : host) (cmd : list string) :
  get_system_version spawn cmd
  = Ret match spawn cmd with
        | Ret p =>
            if (returncode p =? 0)%Z then Some (strip (stdout p)) else None
        | Raise _ => None
        end.
Proof.
  unfold get_system_version, subprocess_run, bind, try_except.
  destruct (spawn cmd) as [p|e]; [|reflexivity].
  simpl. destruct (returncode p =? 0)%Z; reflexivity.
Qed.

Lemma lstrip_all_space (s : string) : all_space s = true -> lstrip s = "".
Proof.
  induction s as [|c s IH]; [reflexivity|].
  simpl. intro H. apply andb_true_iff in H. destruct H as [Hc Hs].
  rewrite Hc. now apply IH.
Qed.

Lemma strip_all_space (s : string) : all_space s = true -> strip s = "".
Proof. intro H. unfold strip. now rewrite (lstrip_all_space s H). Qed.

(** What [rstrip] leaves unchanged does not end in whitespace. *)
Lemma rstrip_last (t : string) (c : ascii) :
  rstrip (t ++ String c "") = t ++ String c "" -> isspace c = false.
Proof.
  induction t as [|d t IH].
  - simpl. destruct (isspace c); [discriminate | reflexivity].
  - cbn [append]. cbn [rstrip].
    destruct (rstrip (t ++ String c "")) as [|e r] eqn:R.
    + destruct (isspace d); intro H; [discriminate|].
      injection H as H. destruct t; discriminate H.
    + intro H. injection H as H. now apply IH.
Qed.

End ProbeMore.

(** X5: a version returned by the probe is the command's output without
    the whitespace around it: it neither starts nor ends with a whitespace
    character, and the output is that version between two runs of
    whitespace; the command ended with status 0. *)
Theorem get_system_version_trimmed (spawn : host) (cmd : list string)
  (out : string) (H : get_system_version spawn cmd = Ret (Some out)) :
  (forall c t, out = String c t -> isspace c = false)
  /\ (forall t c, out = t ++ String c "" -> isspace c = false)
  /\ exists p a b,
       spawn cmd = Ret p /\ returncode p = 0%Z
       /\ stdout p = a ++ out ++ b
       /\ all_space a = true /\ all_space b = true.
Proof.
  rewrite get_system_version_cases in H.
  destruct (spawn cmd) as [p|e]; [|discriminate].
  destruct (returncode p =? 0)%Z eqn:Hz; [|discriminate].
  injection H as <-.
  destruct (strip_trimmed (stdout p)) as [Hl Hr].
  split; [|split].
  - intros c t E. rewrite E in Hl. simpl in Hl.
    destruct (isspace c); [|reflexivity].
    exfalso. destruct (lstrip_split t) as (a & Ea & _).
    apply (f_equal String.length) in Hl. apply (f_equal String.length) in Ea.
    rewrite length_append in Ea. simpl in Hl. lia.
  - intros t c E. rewrite E in Hr. now apply rstrip_last in Hr.
  - destruct (strip_split (stdout p)) as (a & b & E & Ha & Hb).
    exists p, a, b. repeat split; try assumption. now apply Z.eqb_eq.
Qed.

Lemma get_system_version_trimmed_witness :
  get_system_version
    (fun _ => Ret {| returncode := 0; stdout := "3.8.4" ++ newline |})
    ["gdal-config"; "--version"] = Ret (Some "3.8.4")
  /\ isspace "3" = false.
Proof.
  split; [reflexivity|].
  exact (proj1 (get_system_version_trimmed
                  (fun _ => Ret {| returncode := 0;
                                   stdout := "3.8.4" ++ newline |})
                  ["gdal-config"; "--version"] "3.8.4" eq_refl)
           "3"%char ".8.4" eq_refl).
Defined.

(** X6: a command that ends with status 0 and prints nothing but
    whitespace gives the empty string, not absence. *)
Theorem get_system_version_blank (spawn : host) (cmd : list string)
  (p : CompletedProcess) (Hrun : spawn cmd = Ret p)
  (Hz : returncode p = 0%Z) (Hs : all_space (stdout p) = true) :
  get_system_version spawn cmd = Ret (Some "").
Proof.
  rewrite get_system_version_cases, Hrun, Hz. simpl.
  now rewrite (strip_all_space _ Hs).
Qed.

Lemma get_system_version_blank_witness :
  get_system_version
    (fun _ => Ret {| returncode := 0; stdout := newline |})
    ["geos-config"; "--version"]
  = Ret (Some "").
Proof.
  exact (get_system_version_blank _ ["geos-config"; "--version"]
           {| returncode := 0; stdout := newline |}
           eq_refl eq_refl eq_refl).
Defined.

(** ** More on the alignment checker *)

Section AlignmentMore.

Local Arguments normalize_version : simpl never.
Local Arguments opt_eqb : simpl never.

Lemma normalize_twice (v : option string) :
  (forall s, v = Some s -> single_line s = true) ->
  normalize_version (normalize_version v) = normalize_version v.
Proof.
  intro H. destruct v as [s|]; [|reflexivity].
  specialize (H s eq_refl).
  rewrite (normalize_version_single_line s H).
  rewrite (normalize_version_single_line _ (single_line_normalize s H)).
  now rewrite normalize_fixed.
Qed.

Lemma aligned_eq (lib_name : string) (system_ver : option string)
  (pkg_versions : dict (option string)) :
  aligned (check_alignment lib_name system_ver pkg_versions)
  = match mismatches (check_alignment lib_name system_ver pkg_versions) with
    | [] => true
    | _ :: _ => false
    end.
Proof.
  unfold check_alignment.
  destruct (actual_versions pkg_versions); [reflexivity|].
  destruct (fold_left _ _ _); reflexivity.
Qed.

Lemma actual_versions_app (l1 l2 : dict (option string)) :
  actual_versions (l1 ++ l2)%list
  = (actual_versions l1 ++ actual_versions l2)%list.
Proof.
  induction l1 as [|[p [s|]] l1 IH]; simpl; [reflexivity| |exact IH].
  destruct (startswith s "via "); simpl; now rewrite IH.
Qed.

Lemma mismatches_app (lib_name : string) (system_ver : option string)
  (l1 l2 : dict (option string)) :
  mismatches (check_alignment lib_name system_ver (l1 ++ l2)%list)
  = (mismatches (check_alignment lib_name system_ver l1)
     ++ mismatches (check_alignment lib_name system_ver l2))%list.
Proof.
  rewrite !mismatches_eq, actual_versions_app, filter_app, map_app.
  reflexivity.
Qed.

Lemma keys_actual_versions (pkg_versions : dict (option string))
  (k : string) :
  In k (map fst (actual_versions pkg_versions)) -> In k (keys pkg_versions).
Proof.
  intro H. apply in_map_iff in H. destruct H as [[p v] [<- H]].
  apply in_actual_versions in H. destruct H as [H _].
  unfold keys. apply in_map_iff. now exists (p, Some v).
Qed.

Lemma NoDup_actual_versions (pkg_versions : dict (option string)) :
  NoDup (keys pkg_versions) -> NoDup (map fst (actual_versions pkg_versions)).
Proof.
  induction pkg_versions as [|[p o] rest IH]; intro H; [constructor|].
  inversion H as [|? ? Hnin Hnd]; subst.
  destruct o as [s|]; simpl; [|now apply IH].
  destruct (startswith s "via "); simpl; [now apply IH|].
  constructor; [|now apply IH].
  intro Hin. apply Hnin. now apply keys_actual_versions.
Qed.

Lemma NoDup_map_filter {A B : Type} (f : A -> B) (g : A -> bool)
  (l : list A) :
  NoDup (map f l) -> NoDup (map f (filter g l)).
Proof.
  induction l as [|a l IH]; intro H; [constructor|].
  inversion H as [|? ? Hnin Hnd]; subst. simpl.
  destruct (g a); simpl; [|now apply IH].
  constructor; [|now apply IH].
  intro Hin. apply Hnin. apply in_map_iff in Hin.
  destruct Hin as [x [E Hx]]. apply filter_In in Hx.
  apply in_map_iff. exists x. tauto.
Qed.

Lemma length_actual_versions (pkg_versions : dict (option string)) :
  List.length (actual_versions pkg_versions) <= List.length pkg_versions.
Proof.
  induction pkg_versions as [|[p [s|]] rest IH]; simpl; [lia| |lia].
  destruct (startswith s "via "); simpl; lia.
Qed.

Lemma length_filter_le {A : Type} (g : A -> bool) (l : list A) :
  List.length (filter g l) <= List.length l.
Proof. induction l as [|a l IH]; simpl; [lia|]. destruct (g a); simpl; lia. Qed.

Lemma mismatch_pkgs (lib_name : string) (system_ver : option string)
  (pkg_versions : dict (option string)) :
  map mismatch_pkg (mismatches (check_alignment lib_name system_ver
                                  pkg_versions))
  = map fst
      (filter (fun '(pkg, v) =>
                 negb (opt_eqb (normalize_version (Some v))
                         (normalize_version system_ver)))
         (actual_versions pkg_versions)).
Proof.
  rewrite mismatches_eq, map_map. apply map_ext. now intros [p v].
Qed.

End AlignmentMore.

(** X7: checking a table is checking its parts: the mismatches of two
    tables put end to end are those of the first followed by those of the
    second, and the whole passes exactly when both parts pass. *)
Theorem check_alignment_app (lib_name : string) (system_ver : option string)
  (l1 l2 : dict (option string)) :
  mismatches (check_alignment lib_name system_ver (l1 ++ l2)%list)
  = (mismatches (check_alignment lib_name system_ver l1)
     ++ mismatches (check_alignment lib_name system_ver l2))%list
  /\ aligned (check_alignment lib_name system_ver (l1 ++ l2)%list)
     = aligned (check_alignment lib_name system_ver l1)
       && aligned (check_alignment lib_name system_ver l2).
Proof.
  split; [apply mismatches_app|].
  rewrite !aligned_eq, mismatches_app.
  destruct (mismatches (check_alignment lib_name system_ver l1));
    [|reflexivity].
  destruct (mismatches (check_alignment lib_name system_ver l2));
    reflexivity.
Qed.

(** X8: when the packages of the table are distinct, no package is listed
    twice among the mismatches, and there are no more mismatches than
    packages. *)
Theorem mismatches_distinct (lib_name : string) (system_ver : option string)
  (pkg_versions : dict (option string))
  (H : NoDup (keys pkg_versions)) :
  let ms := mismatches (check_alignment lib_name system_ver pkg_versions) in
  NoDup (map mismatch_pkg ms)
  /\ List.length ms <= List.length pkg_versions.
Proof.
  intro ms. subst ms. split.
  - rewrite mismatch_pkgs. apply NoDup_map_filter.
    now apply NoDup_actual_versions.
  - rewrite mismatches_eq, length_map.
    etransitivity; [apply length_filter_le | apply length_actual_versions].
Qed.

Lemma mismatches_distinct_witness :
  NoDup (map mismatch_pkg
           (mismatches
              (check_alignment "GDAL" (Some "3.8.0")
                 [("rasterio", Some "3.8.0"); ("fiona", Some "3.7.1")]))).
Proof.
  refine (proj1 (mismatches_distinct "GDAL" (Some "3.8.0")
                   [("rasterio", Some "3.8.0"); ("fiona", Some "3.7.1")] _)).
  repeat constructor; simpl; intuition discriminate.
Defined.

(** X9: the check reads the ground truth only through its normal form:
    with a ground truth without line feed (or absent), giving the check the
    normalised ground truth instead changes neither the verdict nor the
    mismatches. *)
Theorem check_alignment_normal_form (lib_name : string)
  (system_ver : option string) (pkg_versions : dict (option string))
  (H : forall s, system_ver = Some s -> single_line s = true) :
  mismatches (check_alignment lib_name (normalize_version system_ver)
                pkg_versions)
  = mismatches (check_alignment lib_name system_ver pkg_versions)
  /\ aligned (check_alignment lib_name (normalize_version system_ver)
                pkg_versions)
     = aligned (check_alignment lib_name system_ver pkg_versions).
Proof.
  assert (E : mismatches (check_alignment lib_name
                            (normalize_version system_ver) pkg_versions)
              = mismatches (check_alignment lib_name system_ver
                              pkg_versions))
    by (rewrite !mismatches_eq, (normalize_twice system_ver H);
        reflexivity).
  split; [exact E|]. now rewrite !aligned_eq, E.
Qed.

Lemma check_alignment_normal_form_witness :
  aligned (check_alignment "GDAL" (normalize_version (Some "3.8.0-dev"))
             [("fiona", Some "3.8.0")])
  = aligned (check_alignment "GDAL" (Some "3.8.0-dev")
               [("fiona", Some "3.8.0")]).
Proof.
  refine (proj2 (check_alignment_normal_form "GDAL" (Some "3.8.0-dev")
                   [("fiona", Some "3.8.0")] _)).
  intros s E. injection E as <-. reflexivity.
Defined.

(** X10: two packages that report literal versions with different normal
    forms make the check fail, whatever the ground truth is. *)
Theorem disagreeing_packages_fail (lib_name : string)
  (system_ver : option string) (pkg_versions : dict (option string))
  (p1 v1 p2 v2 : string)
  (H1 : In (p1, Some v1) pkg_versions) (L1 : startswith v1 "via " = false)
  (H2 : In (p2, Some v2) pkg_versions) (L2 : startswith v2 "via " = false)
  (Hd : normalize_version (Some v1) <> normalize_version (Some v2)) :
  aligned (check_alignment lib_name system_ver pkg_versions) = false.
Proof.
  apply misaligned_iff.
  destruct (opt_eqb (normalize_version (Some v1))
              (normalize_version system_ver)) eqn:E.
  - apply opt_eqb_eq in E. exists p2, v2. repeat split; try assumption.
    congruence.
  - apply opt_eqb_neq in E. exists p1, v1. tauto.
Qed.

Lemma disagreeing_packages_fail_witness :
  aligned (check_alignment "PROJ" (Some "9.3.0")
             [("rasterio", Some "9.3.0"); ("pyproj", Some "9.2.1")])
  = false.
Proof.
  refine (disagreeing_packages_fail "PROJ" (Some "9.3.0")
            [("rasterio", Some "9.3.0"); ("pyproj", Some "9.2.1")]
            "rasterio" "9.3.0" "pyproj" "9.2.1" _ eq_refl _ eq_refl _).
  - now left.
  - right. now left.
  - vm_compute. discriminate.
Defined.

(** ** More on the scan of the geopandas report *)

Section ParserMore.

Local Arguments strip : simpl never.

Lemma lacks_append (c : ascii) (s t : string) :
  lacks c (s ++ t) = lacks c s && lacks c t.
Proof.
  induction s as [|x s IH]; simpl; [reflexivity|].
  now rewrite IH, andb_assoc.
Qed.

Lemma lacks_strip (c : ascii) (s : string) :
  lacks c s = true -> lacks c (strip s) = true.
Proof.
  destruct (strip_split s) as (a & b & E & _). rewrite E at 1.
  rewrite !lacks_append. intro H.
  apply andb_true_iff in H. destruct H as [_ H].
  apply andb_true_iff in H. tauto.
Qed.

Lemma lacks_after_first (c sep : ascii) (s rest : string) :
  lacks c s = true -> after_first sep s = Some rest -> lacks c rest = true.
Proof.
  induction s as [|x s IH]; simpl; [discriminate|].
  intro H. apply andb_true_iff in H. destruct H as [_ Hs].
  destruct (Ascii.eqb x sep); [congruence | now apply IH].
Qed.

Lemma lacks_before_first (c sep : ascii) (s : string) :
  lacks c s = true -> lacks c (before_first sep s) = true.
Proof.
  induction s as [|x s IH]; simpl; [reflexivity|].
  intro H. apply andb_true_iff in H. destruct H as [Hx Hs].
  destruct (Ascii.eqb x sep); [reflexivity|].
  simpl. rewrite Hx. now apply IH.
Qed.

Lemma before_first_lacks (sep : ascii) (s : string) :
  lacks sep (before_first sep s) = true.
Proof.
  induction s as [|x s IH]; simpl; [reflexivity|].
  destruct (Ascii.eqb x sep) eqn:E; [reflexivity|].
  simpl. now rewrite E.
Qed.

(** No field of a split contains the separator. *)
Lemma split_lacks (sep : ascii) (s line : string) :
  In line (split sep s) -> lacks sep line = true.
Proof.
  revert line. induction s as [|c s IH]; intro line.
  - intros [<-|[]]. reflexivity.
  - simpl. destruct (Ascii.eqb c sep) eqn:E.
    + intros [<-|H]; [reflexivity | now apply IH].
    + destruct (split sep s) as [|h t] eqn:S.
      * intros [<-|[]]. simpl. now rewrite E.
      * intros [<-|H].
        -- simpl. rewrite E. apply IH. now left.
        -- apply IH. now right.
Qed.


Lemma split_nonempty (sep : ascii) (s : string) : split sep s <> [].
Proof.
  destruct s as [|c s]; simpl; [discriminate|].
  destruct (Ascii.eqb c sep); [discriminate|].
  destruct (split sep s); discriminate.
Qed.


(** Joining the fields with the separator gives the text back. *)
Lemma concat_split (sep : ascii) (s : string) :
  String.concat (String sep "") (split sep s) = s.
Proof.
  induction s as [|c s IH]; [reflexivity|].
  cbn [split]. destruct (Ascii.eqb_spec c sep) as [->|Hc].
  - destruct (split sep s) as [|h t] eqn:S;
      [now apply split_nonempty in S|].
    change (String.concat (String sep "") ("" :: h :: t))
      with (String sep (String.concat (String sep "") (h :: t))).
    now rewrite IH.
  - destruct (split sep s) as [|h [|h' t]] eqn:S.
    + now apply split_nonempty in S.
    + simpl in *. congruence.
    + change (String.concat (String sep "") (String c h :: h' :: t))
        with (String c (String.concat (String sep "") (h :: h' :: t))).
      now rewrite IH.
Qed.

Lemma strip_strip (s : string) : strip (strip s) = strip s.
Proof.
  destruct (strip_trimmed s) as [Hl Hr].
  unfold strip at 1. now rewrite Hl, Hr.
Qed.


End ParserMore.

(** X14: a value taken from the report has no whitespace at either end,
    no colon and no line feed. *)
Theorem parsed_value_clean (gp_info : string) (l : library) (x : string)
  (H : gp_var l (parse_show_versions gp_info) = Some x) :
  strip x = x /\ lacks ":" x = true /\ lacks LF x = true.
Proof.
  rewrite parse_show_versions_scan in H. unfold scan in H.
  apply last_value_some in H.
  destruct H as (before & line & after & E & Hv & _).
  destruct (selects l line); [|discriminate].
  unfold second_field in Hv.
  destruct (after_first ":" line) as [rest|] eqn:Ha; [|discriminate].
  injection Hv as <-.
  assert (Hline : lacks LF line = true).
  { apply (split_lacks LF gp_info). rewrite E. apply in_or_app.
    right. now left. }
  split; [apply strip_strip|]. split; apply lacks_strip.
  - apply before_first_lacks.
  - apply lacks_before_first. exact (lacks_after_first _ _ _ _ Hline Ha).
Qed.

Lemma parsed_value_clean_witness :
  strip "3.10.1" = "3.10.1" /\ lacks ":" "3.10.1" = true
  /\ lacks LF "3.10.1" = true.
Proof.
  exact (parsed_value_clean ("GEOS       : 3.10.1" ++ newline
                             ++ "GEOS lib   : /usr/lib/libgeos_c.so")
           lib_GEOS "3.10.1" eq_refl).
Defined.



(** X16: the lines that the scan goes through are the report cut at its
    line feeds: joined by line feeds they give the report back, and none of
    them contains a line feed. *)
Theorem report_lines (gp_info : string) :
  String.concat newline (split LF gp_info) = gp_info
  /\ Forall (fun line => single_line line = true) (split LF gp_info).
Proof.
  split; [apply concat_split|]. apply Forall_forall.
  intros line H. rewrite <- lacks_single_line.
  now apply (split_lacks LF gp_info).
Qed.

(** ** The printed table *)

Section TableFacts.

Lemma length_repeat_char (c : ascii) (n : nat) :
  String.length (repeat_char c n) = n.
Proof. induction n as [|n IH]; simpl; congruence. Qed.

(** Padding fills up to the width and never cuts. *)
Lemma length_ljust (width : nat) (s : string) :
  String.length (ljust width s) = Nat.max width (String.length s).
Proof. unfold ljust. rewrite length_append, length_repeat_char. lia. Qed.

Lemma length_row (a b c d : string) :
  String.length (row a b c d)
  = Nat.max 15 (String.length a) + Nat.max 20 (String.length b)
    + Nat.max 12 (String.length c) + Nat.max 12 (String.length d) + 3.
Proof.
  unfold row. rewrite !length_append, !length_ljust. simpl. lia.
Qed.

End TableFacts.

(** X17: a row of the table is as wide as its four cells, each padded to
    its column width (15, 20, 12, 12) and never cut, plus three spaces; so
    every line under the title has at least 62 characters, and a row has
    exactly 62 when its four cells fit their columns. *)
Theorem table_row_width (results : dict Report) (a b c d : string) :
  String.length (row a b c d)
  = Nat.max 15 (String.length a) + Nat.max 20 (String.length b)
    + Nat.max 12 (String.length c) + Nat.max 12 (String.length d) + 3
  /\ String.prefix a (row a b c d) = true
  /\ List.length (print_results results) = 3 + List.length results
  /\ Forall (fun line => 62 <= String.length line)
       (tl (print_results results)).
Proof.
  split; [apply length_row|]. split; [|split].
  - unfold row, ljust. apply prefix_trans_append, prefix_append.
  - unfold print_results. simpl. now rewrite length_map.
  - unfold print_results. cbn [tl].
    repeat (constructor; [rewrite length_row; lia|]).
    apply Forall_forall. intros line H. apply in_map_iff in H.
    destruct H as [[pkg versions] [<- _]]. rewrite length_row. lia.
Qed.

(** X18: the table cannot tell an empty version from an absent one, both
    are shown as "-"; the check can: an absent value is skipped, an empty
    one is compared and passes only when the ground truth normalises to the
    empty string. *)
Theorem empty_version_is_compared (lib_name pkg : string)
  (system_ver : option string) :
  or_dash (Some "") = or_dash None
  /\ aligned (check_alignment lib_name system_ver [(pkg, None)]) = true
  /\ (aligned (check_alignment lib_name system_ver [(pkg, Some "")]) = true
      <-> normalize_version system_ver = Some "").
Proof.
  split; [reflexivity|]. split; [reflexivity|].
  destruct (aligned (check_alignment lib_name system_ver [(pkg, Some "")]))
    eqn:A.
  - split; [intros _ | reflexivity].
    destruct (opt_eqb (normalize_version (Some ""))
                (normalize_version system_ver)) eqn:E.
    + apply opt_eqb_eq in E. now rewrite <- E.
    + apply opt_eqb_neq in E.
      assert (F : aligned (check_alignment lib_name system_ver
                             [(pkg, Some "")]) = false).
      { apply misaligned_iff. exists pkg, "".
        repeat split; [now left | exact E]. }
      congruence.
  - split; [discriminate|]. intro Hn. apply misaligned_iff in A.
    destruct A as (p & v & [Hin|[]] & _ & Hd).
    injection Hin as _ <-. elim Hd. now rewrite Hn.
Qed.


(** ** The collected table *)

Section CollectFacts.

Lemma in_dict_set_inv {V : Type} (k k' : string) (v v' : V) (d : dict V) :
  In (k', v') (dict_set k v d) -> (k' = k /\ v' = v) \/ In (k', v') d.
Proof.
  induction d as [|[k0 v0] d IH]; simpl.
  - intros [H|[]]. left. split; congruence.
  - destruct (String.eqb k0 k); simpl.
    + intros [H|H]; [left; split; congruence | right; now right].
    + intros [H|H]; [right; now left|].
      destruct (IH H) as [?|?]; [now left | right; now right].
Qed.

Lemma in_dict_set_other {V : Type} (k k' : string) (v v' : V) (d : dict V) :
  k' <> k -> In (k', v') d -> In (k', v') (dict_set k v d).
Proof.
  intro Hne. induction d as [|[k0 v0] d IH]; simpl; [tauto|].
  destruct (String.eqb_spec k0 k) as [->|Hk]; simpl.
  - intros [H|H]; [congruence | now right].
  - intros [H|H]; [now left | right; now apply IH].
Qed.

Lemma in_dict_set_same {V : Type} (k : string) (v : V) (d : dict V) :
  In (k, v) (dict_set k v d).
Proof.
  induction d as [|[k0 v0] d IH]; simpl; [now left|].
  destruct (String.eqb k0 k); simpl; [now left | now right].
Qed.

(** Assigning to a key adds the key only when it is new, at the end. *)
Lemma keys_dict_set {V : Type} (k : string) (v : V) (d : dict V) :
  keys (dict_set k v d)
  = if existsb (String.eqb k) (keys d) then keys d
    else (keys d ++ [k])%list.
Proof.
  induction d as [|[k0 v0] d IH]; [reflexivity|].
  cbn [dict_set keys map fst existsb]. rewrite (String.eqb_sym k k0).
  destruct (String.eqb_spec k0 k) as [->|Hk]; cbn [orb]; [reflexivity|].
  cbn [map fst]. fold (keys (dict_set k v d)). rewrite IH.
  fold (keys d). now destruct (existsb (String.eqb k) (keys d)).
Qed.

Lemma bind_ret {A B : Type} (m : res A) (f : A -> res B) (b : B) :
  (x <- m ;; f x) = Ret b -> exists a, m = Ret a /\ f a = Ret b.
Proof. destruct m as [a|e]; simpl; [now exists a | discriminate]. Qed.

(** Each block either files its row or leaves the table alone, when it
    lets no exception through. *)
Ltac probe_cases :=
  unfold file_row, filed_row, pass_ImportError, bind;
  cbn [String.eqb Ascii.eqb Bool.eqb];
  repeat match goal with
         | |- context [match ?x with _ => _ end] =>
             lazymatch x with
             | context [match _ with _ => _ end] => fail
             | _ =>
                 match type of x with
                 | res _ => destruct x as [?|[]]
                 | option _ => destruct x
                 end
             end
         end;
  cbn [bind];
  let H := fresh "H" in
  intro H; try discriminate H; injection H as <-; reflexivity.

Lemma probe_osgeo_files (env : Env) (d d' : dict Row) :
  probe_osgeo env d = Ret d' -> d' = file_row env d "osgeo.gdal".
Proof. unfold probe_osgeo. probe_cases. Qed.

Lemma probe_rasterio_files (env : Env) (d d' : dict Row) :
  probe_rasterio env d = Ret d' -> d' = file_row env d "rasterio".
Proof. unfold probe_rasterio. probe_cases. Qed.

Lemma probe_fiona_files (env : Env) (d d' : dict Row) :
  probe_fiona env d = Ret d' -> d' = file_row env d "fiona".
Proof. unfold probe_fiona. probe_cases. Qed.

Lemma probe_pyogrio_files (env : Env) (d d' : dict Row) :
  probe_pyogrio env d = Ret d' -> d' = file_row env d "pyogrio".
Proof. unfold probe_pyogrio. probe_cases. Qed.

Lemma probe_pyproj_files (env : Env) (d d' : dict Row) :
  probe_pyproj env d = Ret d' -> d' = file_row env d "pyproj".
Proof. unfold probe_pyproj. probe_cases. Qed.

Lemma probe_shapely_files (env : Env) (d d' : dict Row) :
  probe_shapely env d = Ret d' -> d' = file_row env d "shapely".
Proof. unfold probe_shapely. probe_cases. Qed.

Lemma probe_geopandas_files (env : Env) (d d' : dict Row) :
  probe_geopandas env d = Ret d' -> d' = file_row env d "geopandas".
Proof. unfold probe_geopandas. probe_cases. Qed.

Lemma probe_rioxarray_files (env : Env) (d d' : dict Row) :
  probe_rioxarray env d = Ret d' -> d' = file_row env d "rioxarray".
Proof. unfold probe_rioxarray. probe_cases. Qed.

Lemma probe_odc_geo_files (env : Env) (d d' : dict Row) :
  probe_odc_geo env d = Ret d' -> d' = file_row env d "odc-geo".
Proof. unfold probe_odc_geo. probe_cases. Qed.

(** A table that was collected is the blocks' rows, filed one package
    after the other. *)
Lemma collect_fold (env : Env) (results : dict Row) :
  collect env = Ret results ->
  results = fold_left (file_row env) package_names [].
Proof.
  unfold collect. intro H.
  repeat match type of H with
         | bind _ _ = Ret _ =>
             apply bind_ret in H; destruct H as (? & ? & H)
         end.
  apply probe_odc_geo_files in H.
  repeat match goal with
         | E : probe_osgeo _ _ = Ret _ |- _ => apply probe_osgeo_files in E
         | E : probe_rasterio _ _ = Ret _ |- _ =>
             apply probe_rasterio_files in E
         | E : probe_fiona _ _ = Ret _ |- _ => apply probe_fiona_files in E
         | E : probe_pyogrio _ _ = Ret _ |- _ =>
             apply probe_pyogrio_files in E
         | E : probe_pyproj _ _ = Ret _ |- _ => apply probe_pyproj_files in E
         | E : probe_shapely _ _ = Ret _ |- _ =>
             apply probe_shapely_files in E
         | E : probe_geopandas _ _ = Ret _ |- _ =>
             apply probe_geopandas_files in E
         | E : probe_rioxarray _ _ = Ret _ |- _ =>
             apply probe_rioxarray_files in E
         end.
  subst. reflexivity.
Qed.

Lemma existsb_eqb_false (k : string) (l : list string) :
  ~ In k l -> existsb (String.eqb k) l = false.
Proof.
  induction l as [|x l IH]; [reflexivity|].
  simpl. intro H. rewrite IH by tauto.
  destruct (String.eqb_spec k x); [subst; tauto | reflexivity].
Qed.

Lemma fold_keys (env : Env) (names : list string) (d : dict Row) :
  NoDup names -> (forall k, In k names -> ~ In k (keys d)) ->
  keys (fold_left (file_row env) names d)
  = (keys d ++ filter (reports env) names)%list.
Proof.
  revert d. induction names as [|x names IH]; intros d Hnd Hfresh.
  - simpl. now rewrite app_nil_r.
  - inversion Hnd as [|? ? Hx Hnd']; subst. cbn [fold_left filter].
    unfold file_row at 2, reports at 1.
    destruct (filed_row env x) as [r|].
    + rewrite IH; [|exact Hnd'|].
      * rewrite keys_dict_set, existsb_eqb_false
          by (apply Hfresh; now left).
        now rewrite <- app_assoc.
      * intros k Hk. rewrite keys_dict_set, existsb_eqb_false
          by (apply Hfresh; now left).
        intro Hin. apply in_app_or in Hin. destruct Hin as [Hin|[<-|[]]].
        -- apply (Hfresh k); [now right | exact Hin].
        -- exact (Hx Hk).
    + apply IH; [exact Hnd'|]. intros k Hk. apply Hfresh. now right.
Qed.

Lemma fold_in (env : Env) (names : list string) (d : dict Row)
  (k : string) (r : Row) :
  In (k, r) (fold_left (file_row env) names d) ->
  In (k, r) d \/ (In k names /\ filed_row env k = Some r).
Proof.
  revert d. induction names as [|x names IH]; intros d H; [now left|].
  cbn [fold_left] in H. apply IH in H. destruct H as [H|[H1 H2]].
  - unfold file_row in H. destruct (filed_row env x) as [rx|] eqn:E.
    + apply in_dict_set_inv in H. destruct H as [[-> ->]|H]; [|now left].
      right. split; [now left | exact E].
    + now left.
  - right. split; [now right | exact H2].
Qed.

Lemma fold_keeps (env : Env) (names : list string) (d : dict Row)
  (k : string) (r : Row) :
  ~ In k names -> In (k, r) d ->
  In (k, r) (fold_left (file_row env) names d).
Proof.
  revert d. induction names as [|x names IH]; intros d Hk H; [exact H|].
  cbn [fold_left]. apply IH; [intro; apply Hk; now right|].
  unfold file_row. destruct (filed_row env x); [|exact H].
  apply in_dict_set_other; [|exact H]. intros ->. apply Hk. now left.
Qed.

Lemma fold_has (env : Env) (names : list string) (d : dict Row)
  (k : string) (r : Row) :
  NoDup names -> In k names -> filed_row env k = Some r ->
  In (k, r) (fold_left (file_row env) names d).
Proof.
  revert d. induction names as [|x names IH]; intros d Hnd Hk E;
    [destruct Hk|].
  inversion Hnd as [|? ? Hx Hnd']; subst. cbn [fold_left].
  destruct Hk as [->|Hk].
  - apply fold_keeps; [exact Hx|]. unfold file_row. rewrite E.
    apply in_dict_set_same.
  - now apply IH.
Qed.

Lemma NoDup_package_names : NoDup package_names.
Proof.
  unfold package_names. repeat constructor; simpl; intuition discriminate.
Qed.

(** What a collected table holds: the rows the blocks file, no other. *)
Lemma collect_in (env : Env) (results : dict Row) (k : string) (r : Row) :
  collect env = Ret results ->
  (In (k, r) results <-> In k package_names /\ filed_row env k = Some r).
Proof.
  intro H. apply collect_fold in H. subst results. split.
  - intro H. apply fold_in in H. destruct H as [[]|H]. exact H.
  - intros [H1 H2]. apply fold_has; [apply NoDup_package_names | | ]; auto.
Qed.

Lemma collect_keys (env : Env) (results : dict Row) :
  collect env = Ret results ->
  keys results = filter (reports env) package_names.
Proof.
  intro H. apply collect_fold in H. subst results.
  rewrite fold_keys; [reflexivity | apply NoDup_package_names|].
  intros k _ [].
Qed.

(** The columns a package can fill. *)
Lemma filed_row_shape (env : Env) (pkg : string) (r : Row) :
  In pkg package_names -> filed_row env pkg = Some r ->
  (pkg = "osgeo.gdal" /\ row_PROJ r = PyNone /\ row_GEOS r = PyNone)
  \/ (pkg = "rasterio" /\ row_GEOS r = PyNone)
  \/ (pkg = "fiona" /\ row_GEOS r = PyNone)
  \/ (pkg = "pyogrio" /\ row_PROJ r = PyNone /\ row_GEOS r = PyNone)
  \/ (pkg = "pyproj" /\ row_GDAL r = PyNone /\ row_GEOS r = PyNone)
  \/ (pkg = "shapely" /\ row_GDAL r = PyNone /\ row_PROJ r = PyNone)
  \/ pkg = "geopandas"
  \/ (pkg = "rioxarray" /\ row_GDAL r = PyStr "via rasterio"
      /\ row_PROJ r = PyStr "via rasterio" /\ row_GEOS r = PyNone)
  \/ (pkg = "odc-geo" /\ row_GDAL r = PyStr "via rasterio"
      /\ row_PROJ r = PyStr "via pyproj" /\ row_GEOS r = PyNone).
Proof.
  intro Hin. unfold package_names in Hin. simpl in Hin.
  repeat match goal with
         | H : _ \/ _ |- _ => destruct H as [H|H]
         end; try contradiction; subst pkg;
    unfold filed_row; cbn [String.eqb Ascii.eqb Bool.eqb];
    repeat match goal with
           | |- context [match ?x with _ => _ end] =>
               lazymatch x with
               | context [match _ with _ => _ end] => fail
               | _ =>
                   match type of x with
                   | res _ => destruct x as [?|[]]
                   | option _ => destruct x
                   end
               end
           end;
    intro H; try discriminate H; injection H as <-; cbn; tauto.
Qed.

(** *** Tables of strings *)

Lemma typed_row_fields (r : Row) (rep : Report) :
  typed_row r = Some rep ->
  typed_value (row_GDAL r) = Some (GDAL rep)
  /\ typed_value (row_PROJ r) = Some (PROJ rep)
  /\ typed_value (row_GEOS r) = Some (GEOS rep).
Proof.
  unfold typed_row.
  destruct (typed_value (row_GDAL r)), (typed_value (row_PROJ r)),
    (typed_value (row_GEOS r)); intro H; try discriminate H.
  injection H as <-. auto.
Qed.

Lemma typed_table_in (results : dict Row) (typed : dict Report)
  (pkg : string) (rep : Report) :
  typed_table results = Some typed -> In (pkg, rep) typed ->
  exists r, In (pkg, r) results /\ typed_row r = Some rep.
Proof.
  revert typed. induction results as [|[k r] rest IH]; intros typed H Hin.
  - injection H as <-. destruct Hin.
  - cbn [typed_table] in H. destruct (typed_row r) as [r'|] eqn:Er;
      [|discriminate]. destruct (typed_table rest) as [rest'|];
      [|discriminate]. injection H as <-. destruct Hin as [E|Hin].
    + injection E as -> ->. exists r. split; [now left | exact Er].
    + destruct (IH rest' eq_refl Hin) as (r0 & H0 & E0).
      exists r0. split; [now right | exact E0].
Qed.

Lemma typed_table_has (results : dict Row) (typed : dict Report)
  (pkg : string) (r : Row) :
  typed_table results = Some typed -> In (pkg, r) results ->
  exists rep, In (pkg, rep) typed /\ typed_row r = Some rep.
Proof.
  revert typed. induction results as [|[k r0] rest IH]; intros typed H Hin;
    [destruct Hin|].
  cbn [typed_table] in H. destruct (typed_row r0) as [r'|] eqn:Er;
    [|discriminate]. destruct (typed_table rest) as [rest'|];
    [|discriminate]. injection H as <-. destruct Hin as [E|Hin].
  - injection E as -> ->. exists r'. split; [now left | exact Er].
  - destruct (IH rest' eq_refl Hin) as (rep & H0 & E0).
    exists rep. split; [now right | exact E0].
Qed.

Lemma typed_table_keys (results : dict Row) (typed : dict Report) :
  typed_table results = Some typed -> keys typed = keys results.
Proof.
  revert typed. induction results as [|[k r] rest IH]; intros typed H.
  - now injection H as <-.
  - cbn [typed_table] in H. destruct (typed_row r); [|discriminate].
    destruct (typed_table rest) as [rest'|]; [|discriminate].
    injection H as <-. simpl. f_equal. now apply IH.
Qed.

(** Reading a column of a table of strings never raises. *)
Lemma read_values_typed (results : dict Row) (typed : dict Report) :
  typed_table results = Some typed ->
  read_values (raw_column row_GDAL results) = Ret (column GDAL typed)
  /\ read_values (raw_column row_PROJ results) = Ret (column PROJ typed)
  /\ read_values (raw_column row_GEOS results) = Ret (column GEOS typed).
Proof.
  revert typed. induction results as [|[k r] rest IH]; intros typed H.
  - injection H as <-. auto.
  - cbn [typed_table] in H. destruct (typed_row r) as [r'|] eqn:Er;
      [|discriminate]. destruct (typed_table rest) as [rest'|];
      [|discriminate]. injection H as <-.
    destruct (IH rest' eq_refl) as (Hg & Hp & He).
    apply typed_row_fields in Er. destruct Er as (Eg & Ep & Ee).
    cbn [raw_column column map read_values] in *.
    fold (raw_column row_GDAL rest). fold (raw_column row_PROJ rest).
    fold (raw_column row_GEOS rest).
    rewrite Hg, Hp, He.
    destruct (row_GDAL r), (row_PROJ r), (row_GEOS r);
      try discriminate; cbn in *;
      injection Eg as <-; injection Ep as <-; injection Ee as <-; auto.
Qed.

(** A table whose three columns can be read is a table of strings. *)
Lemma typed_of_reads (results : dict Row)
  (g p ge : dict (option string)) :
  read_values (raw_column row_GDAL results) = Ret g ->
  read_values (raw_column row_PROJ results) = Ret p ->
  read_values (raw_column row_GEOS results) = Ret ge ->
  exists typed, typed_table results = Some typed.
Proof.
  revert g p ge. induction results as [|[k r] rest IH]; intros g p ge Hg Hp He.
  - now exists [].
  - cbn [raw_column map read_values] in Hg, Hp, He.
    apply bind_ret in Hg. destruct Hg as (vg & Eg & Hg).
    apply bind_ret in Hg. destruct Hg as (g' & Hg & _).
    apply bind_ret in Hp. destruct Hp as (vp & Ep & Hp).
    apply bind_ret in Hp. destruct Hp as (p' & Hp & _).
    apply bind_ret in He. destruct He as (ve & Ee & He).
    apply bind_ret in He. destruct He as (ge' & He & _).
    destruct (IH g' p' ge' Hg Hp He) as [typed Ht].
    cbn [typed_table]. rewrite Ht. unfold typed_row.
    destruct (row_GDAL r), (row_PROJ r), (row_GEOS r);
      try discriminate; eexists; reflexivity.
Qed.

(** The table of a table of strings is printed without exception. *)
Lemma print_rows_typed (results : dict Row) (typed : dict Report) :
  typed_table results = Some typed ->
  print_rows results = Ret (print_results typed).
Proof.
  intro H. unfold print_rows, print_results.
  assert (E : row_lines results
              = Ret (map (fun '(pkg, versions) =>
                            row pkg (or_dash (GDAL versions))
                              (or_dash (PROJ versions))
                              (or_dash (GEOS versions))) typed)).
  { revert typed H. induction results as [|[k r] rest IH]; intros typed H.
    - now injection H as <-.
    - cbn [typed_table] in H. destruct (typed_row r) as [r'|] eqn:Er;
        [|discriminate]. destruct (typed_table rest) as [rest'|];
        [|discriminate]. injection H as <-.
      cbn [row_lines map]. rewrite (IH rest' eq_refl).
      apply typed_row_fields in Er. destruct Er as (Eg & Ep & Ee).
      unfold row_line.
      destruct (row_GDAL r), (row_PROJ r), (row_GEOS r);
        try discriminate; cbn in Eg, Ep, Ee;
        injection Eg as <-; injection Ep as <-; injection Ee as <-;
        reflexivity. }
  rewrite E. reflexivity.
Qed.

End CollectFacts.

(** ** From the probes to the exit code *)

Section EndToEnd.

Lemma in_column (f : Report -> option string) (results : dict Report)
  (pkg : string) (v : option string) :
  In (pkg, v) (column f results)
  <-> exists r, In (pkg, r) results /\ f r = v.
Proof.
  unfold column. rewrite in_map_iff. split.
  - intros [[p r] [E H]]. injection E as -> <-. now exists r.
  - intros [r [H <-]]. now exists (pkg, r).
Qed.

Lemma keys_in {V : Type} (d : dict V) (k : string) (v : V) :
  In (k, v) d -> In k (keys d).
Proof. intro H. unfold keys. apply in_map_iff. now exists (k, v). Qed.

(** Who stands behind a mismatch. *)
Lemma mismatch_source (lib_name : string) (system_ver : option string)
  (f : Report -> option string) (results : dict Report) (pkg : string) :
  In pkg (map mismatch_pkg
            (mismatches (check_alignment lib_name system_ver
                           (column f results)))) ->
  exists r v, In (pkg, r) results /\ f r = Some v
              /\ startswith v "via " = false.
Proof.
  intro H. apply in_map_iff in H. destruct H as [[[p v] n] [E H]].
  unfold mismatch_pkg in E. simpl in E. subst p.
  apply in_mismatches in H. destruct H as (H & Hv & _).
  apply in_column in H. destruct H as [r [H E]]. now exists r, v.
Qed.

Lemma exit_code_one (sg sp sge : option string) (results : dict Report) :
  aligned (check_alignment "GDAL" sg (column GDAL results)) = false ->
  exit_code (verdict sg sp sge results) = 1%Z.
Proof.
  intro H. destruct (exit_code_range sg sp sge results) as [E|E];
    [|exact E].
  apply exit_code_zero in E. destruct E as [E _]. congruence.
Qed.

(** The run reaches its verdict exactly when the table could be collected
    and holds nothing but strings and absences; the verdict is then the one
    on that table, with the three probed ground truths. *)
Lemma main_ret (env : Env) (sg sp sge : option string) (o : Outcome) :
  get_system_version (spawn env) ["gdal-config"; "--version"] = Ret sg ->
  get_system_version (spawn env) ["pkg-config"; "--modversion"; "proj"]
  = Ret sp ->
  get_system_version (spawn env) ["geos-config"; "--version"] = Ret sge ->
  (main env = Ret o
   <-> exists results typed,
         collect env = Ret results /\ typed_table results = Some typed
         /\ o = verdict sg sp sge typed).
Proof.
  intros Eg Ep Ee. unfold main. rewrite Eg, Ep, Ee. cbn [bind]. split.
  - intro H. apply bind_ret in H. destruct H as (results & Hc & H).
    apply bind_ret in H. destruct H as (lines & _ & H).
    unfold check_alignment_raw in H.
    apply bind_ret in H. destruct H as (g_ok & Hg & H).
    apply bind_ret in Hg. destruct Hg as (g & Hg & Hg').
    apply bind_ret in H. destruct H as (p_ok & Hp & H).
    apply bind_ret in Hp. destruct Hp as (pv & Hp & Hp').
    apply bind_ret in H. destruct H as (ge_ok & He & H).
    apply bind_ret in He. destruct He as (ge & He & He').
    destruct (typed_of_reads results g pv ge Hg Hp He) as [typed Ht].
    exists results, typed. split; [exact Hc|]. split; [exact Ht|].
    destruct (read_values_typed results typed Ht) as (Tg & Tp & Te).
    rewrite Tg in Hg. rewrite Tp in Hp. rewrite Te in He.
    injection Hg as <-. injection Hp as <-. injection He as <-.
    injection Hg' as <-. injection Hp' as <-. injection He' as <-.
    injection H as <-. reflexivity.
  - intros (results & typed & Hc & Ht & ->).
    rewrite Hc. cbn [bind]. rewrite (print_rows_typed results typed Ht).
    cbn [bind]. unfold check_alignment_raw.
    destruct (read_values_typed results typed Ht) as (Tg & Tp & Te).
    rewrite Tg, Tp, Te. reflexivity.
Qed.


(** The value that a block handed over is the one the check reads. *)
Lemma typed_gdal (r : Row) (rep : Report) (v : option string) :
  typed_row r = Some rep -> row_GDAL r = of_option v -> GDAL rep = v.
Proof.
  intros H E. apply typed_row_fields in H. destruct H as (H & _).
  rewrite E in H. destruct v; cbn in H; congruence.
Qed.

(** A literal GDAL value filed by a block that differs from the ground
    truth turns the verdict. *)
Lemma filed_gdal_misaligns (env : Env) (pkg x : string) (r : Row)
  (results : dict Row) (typed : dict Report) (sg sp sge : option string) :
  In pkg package_names -> filed_row env pkg = Some r ->
  row_GDAL r = PyStr x -> startswith x "via " = false ->
  normalize_version (Some x) <> normalize_version sg ->
  collect env = Ret results -> typed_table results = Some typed ->
  aligned (gdal_ok (verdict sg sp sge typed)) = false
  /\ exit_code (verdict sg sp sge typed) = 1%Z.
Proof.
  intros Hin Hrow Hx Hv Hd Hc Ht.
  assert (A : aligned (check_alignment "GDAL" sg (column GDAL typed))
              = false).
  { apply misaligned_iff. exists pkg, x. repeat split; [|exact Hv|exact Hd].
    assert (Hr : In (pkg, r) results) by (apply (collect_in env); auto).
    destruct (typed_table_has results typed pkg r Ht Hr) as (rep & Hrep & E).
    apply in_column. exists rep. split; [exact Hrep|].
    exact (typed_gdal r rep (Some x) E Hx). }
  split; [exact A | now apply exit_code_one].
Qed.

End EndToEnd.



(** X11: when no exception escapes the probes, the table has one row for
    each package whose block got as far as filing one (the package could be
    imported and the accessors returned, or raised what the block catches),
    in the order in which the script probes them, and no package has two
    rows. *)
Theorem collect_one_row_each (env : Env) (results : dict Row)
  (H : collect env = Ret results) :
  keys results = filter (reports env) package_names
  /\ NoDup (keys results).
Proof.
  split; [now apply collect_keys|]. rewrite (collect_keys env results H).
  apply NoDup_filter, NoDup_package_names.
Qed.

Lemma collect_one_row_each_witness :
  keys [("osgeo.gdal",
         {| row_GDAL := PyStr "3.8.4"; row_PROJ := PyNone;
            row_GEOS := PyNone |});
        ("pyproj",
         {| row_GDAL := PyNone; row_PROJ := PyStr "9.3.1";
            row_GEOS := PyNone |})]
  = filter (reports bindings_and_pyproj) package_names.
Proof.
  exact (proj1 (collect_one_row_each bindings_and_pyproj _ eq_refl)).
Defined.

(** X12: in a run that reaches the checks, a mismatch is only ever recorded
    for a package that has a row, and only for a library the script reads
    from it: GDAL from osgeo.gdal, rasterio, fiona, pyogrio and geopandas;
    PROJ from rasterio, fiona, pyproj and geopandas; GEOS from shapely and
    geopandas.  In particular never for rioxarray or odc-geo. *)
Theorem mismatch_only_from_readers (env : Env) (results : dict Row)
  (typed : dict Report)
  (system_gdal system_proj system_geos : option string) (pkg : string)
  (Hc : collect env = Ret results)
  (Ht : typed_table results = Some typed) :
  let o := verdict system_gdal system_proj system_geos typed in
  (In pkg (map mismatch_pkg (mismatches (gdal_ok o))) ->
   reports env pkg = true
   /\ In pkg ["osgeo.gdal"; "rasterio"; "fiona"; "pyogrio"; "geopandas"])
  /\ (In pkg (map mismatch_pkg (mismatches (proj_ok o))) ->
      reports env pkg = true
      /\ In pkg ["rasterio"; "fiona"; "pyproj"; "geopandas"])
  /\ (In pkg (map mismatch_pkg (mismatches (geos_ok o))) ->
      reports env pkg = true /\ In pkg ["shapely"; "geopandas"]).
Proof.
  intro o. subst o. unfold verdict. cbn [gdal_ok proj_ok geos_ok].
  split; [|split]; intro H; apply mismatch_source in H;
    destruct H as (rep & v & Hin & Hf & Hv);
    destruct (typed_table_in results typed pkg rep Ht Hin)
      as (r & Hr & Er);
    apply (collect_in env results pkg r Hc) in Hr;
    destruct Hr as [Hn Hrow];
    (split; [unfold reports; now rewrite Hrow|]);
    apply typed_row_fields in Er; destruct Er as (Eg & Ep & Ee);
    rewrite Hf in *;
    destruct (filed_row_shape env pkg r Hn Hrow)
      as [S|[S|[S|[S|[S|[S|[S|[S|S]]]]]]]];
    repeat match goal with
           | H : _ /\ _ |- _ => destruct H
           end;
    subst pkg; simpl; try tauto;
    repeat match goal with
           | H : row_GDAL r = _ |- _ => rewrite H in *
           | H : row_PROJ r = _ |- _ => rewrite H in *
           | H : row_GEOS r = _ |- _ => rewrite H in *
           end;
    cbn in *; try discriminate;
    repeat match goal with
           | H : Some (Some _) = Some (Some _) |- _ => injection H as <-
           end;
    discriminate.
Qed.

Lemma mismatch_only_from_readers_witness :
  reports bindings_and_pyproj "pyproj" = true
  /\ In "pyproj" ["rasterio"; "fiona"; "pyproj"; "geopandas"].
Proof.
  refine (proj1 (proj2 (mismatch_only_from_readers bindings_and_pyproj
                          _ _ None None None "pyproj" eq_refl eq_refl)) _).
  vm_compute. now left.
Defined.

(** X13: when the GDAL probe yields nothing and the osgeo bindings report a
    release name (a string that does not begin with "via "), the run ends
    with status 1; if it reaches the checks, the GDAL check fails. *)
Theorem failed_gdal_probe_exits_1 (env : Env) (m : Osgeo) (v : string)
  (Hprobe : get_system_version (spawn env) ["gdal-config"; "--version"]
            = Ret None)
  (Hos : osgeo env = Ret m)
  (Hrel : gdal_VersionInfo m = Ret (PyStr v))
  (Hv : startswith v "via " = false) :
  exit_status (main env) = 1%Z
  /\ forall o, main env = Ret o ->
               exit_code o = 1%Z /\ aligned (gdal_ok o) = false.
Proof.
  destruct (get_system_version_returns (spawn env)
              ["pkg-config"; "--modversion"; "proj"]) as [sp Ep].
  destruct (get_system_version_returns (spawn env)
              ["geos-config"; "--version"]) as [sge Ee].
  assert (R : forall o, main env = Ret o ->
                        exit_code o = 1%Z /\ aligned (gdal_ok o) = false).
  { intros o Ho. apply (main_ret env None sp sge o Hprobe Ep Ee) in Ho.
    destruct Ho as (results & typed & Hc & Ht & ->).
    apply and_comm.
    apply (filed_gdal_misaligns env "osgeo.gdal" v
             {| row_GDAL := PyStr v; row_PROJ := PyNone;
                row_GEOS := PyNone |} results typed);
      try assumption; try reflexivity.
    - unfold package_names. now left.
    - unfold filed_row. cbn [String.eqb Ascii.eqb Bool.eqb].
      now rewrite Hos, Hrel.
    - discriminate. }
  split; [|exact R].
  destruct (main env) as [o|e] eqn:E; [|reflexivity].
  exact (proj1 (R o eq_refl)).
Qed.

Lemma failed_gdal_probe_exits_1_witness :
  exit_status (main bindings_and_pyproj) = 1%Z.
Proof.
  exact (proj1 (failed_gdal_probe_exits_1 bindings_and_pyproj
                  {| gdal_VersionInfo := Ret (PyStr "3.8.4") |} "3.8.4"
                  eq_refl eq_refl eq_refl eq_refl)).
Defined.

(** X19: in a run that reaches the checks with neither shapely nor
    geopandas imported, nothing reports GEOS: the GEOS check prints that no
    package reports the version directly and passes, whatever geos-config
    says. *)
Theorem geos_needs_shapely_or_geopandas (env : Env) (o : Outcome)
  (e1 e2 : exn)
  (Hs : shapely env = Raise e1) (Hg : geopandas env = Raise e2)
  (Hm : main env = Ret o) :
  geos_ok o
  = {| aligned := true; mismatches := [];
       printed := ["GEOS: No packages report version directly"] |}.
Proof.
  destruct (get_system_version_returns (spawn env)
              ["gdal-config"; "--version"]) as [sg Eg].
  destruct (get_system_version_returns (spawn env)
              ["pkg-config"; "--modversion"; "proj"]) as [sp Ep].
  destruct (get_system_version_returns (spawn env)
              ["geos-config"; "--version"]) as [sge Ee].
  apply (main_ret env sg sp sge o Eg Ep Ee) in Hm.
  destruct Hm as (results & typed & Hc & Ht & ->).
  unfold verdict. cbn [geos_ok].
  apply (nothing_to_compare "GEOS"). intros pkg v H.
  apply in_column in H. destruct H as [rep [H E]].
  destruct (typed_table_in results typed pkg rep Ht H) as (r & Hr & Er).
  apply (collect_in env results pkg r Hc) in Hr. destruct Hr as [Hn Hrow].
  apply typed_row_fields in Er. destruct Er as (_ & _ & Ege).
  rewrite E in Ege.
  destruct (filed_row_shape env pkg r Hn Hrow)
    as [S|[S|[S|[S|[S|[S|[S|[S|S]]]]]]]];
    repeat match goal with
           | H : _ /\ _ |- _ => destruct H
           end;
    subst pkg;
    try (match goal with
         | H : row_GEOS r = _ |- _ => rewrite H in Ege
         end; discriminate Ege);
    unfold filed_row in Hrow; cbn [String.eqb Ascii.eqb Bool.eqb] in Hrow;
    rewrite ?Hs, ?Hg in Hrow; discriminate Hrow.
Qed.

Lemma geos_needs_shapely_or_geopandas_witness :
  geos_ok
    {| gdal_ok := check_alignment "GDAL" None [("osgeo.gdal", Some "3.8.4");
                                               ("pyproj", None)];
       proj_ok := check_alignment "PROJ" None [("osgeo.gdal", None);
                                               ("pyproj", Some "9.3.1")];
       geos_ok := check_alignment "GEOS" None [("osgeo.gdal", None);
                                               ("pyproj", None)];
       exit_code := 1 |}
  = {| aligned := true; mismatches := [];
       printed := ["GEOS: No packages report version directly"] |}.
Proof.
  exact (geos_needs_shapely_or_geopandas bindings_and_pyproj _
           ImportError ImportError eq_refl eq_refl eq_refl).
Defined.



(** Two runs that end by an exception.  pyogrio without
    [get_gdal_version_string] hands over the tuple [__gdal_version__], which
    the table cannot format; rasterio whose [proj_version] raises something
    else than [AttributeError] is not recovered from. *)
Example pyogrio_tuple_stops_the_table :
  main {| spawn := tools_print "3.8.4";
          osgeo := Ret {| gdal_VersionInfo := Ret (PyStr "3.8.4") |};
          rasterio := Raise ImportError;
          fiona := Raise ImportError;
          pyogrio :=
            Ret {| pyogrio_get_gdal_version_string := None;
                   pyogrio_gdal_version :=
                     Ret (PyObj true (fun _ => Raise TypeError)
                            AttributeError) |};
          pyproj := Raise ImportError;
          shapely := Raise ImportError;
          geopandas := Raise ImportError;
          rioxarray := Raise ImportError;
          odc_geo := Raise ImportError |}
  = Raise TypeError.
Proof. reflexivity. Qed.

Example rasterio_handler :
  probe_rasterio
    {| spawn := no_tools;
       osgeo := Raise ImportError;
       rasterio := Ret {| rasterio_gdal_version := Ret (PyStr "3.8.4");
                          rasterio_proj_version := Raise AttributeError |};
       fiona := Raise ImportError;
       pyogrio := Raise ImportError;
       pyproj := Raise ImportError;
       shapely := Raise ImportError;
       geopandas := Raise ImportError;
       rioxarray := Raise ImportError;
       odc_geo := Raise ImportError |} []
  = Ret [("rasterio",
          {| row_GDAL := PyStr "3.8.4"; row_PROJ := PyNone;
             row_GEOS := PyNone |})]
  /\ probe_rasterio
       {| spawn := no_tools;
          osgeo := Raise ImportError;
          rasterio := Ret {| rasterio_gdal_version := Ret (PyStr "3.8.4");
                             rasterio_proj_version := Raise TypeError |};
          fiona := Raise ImportError;
          pyogrio := Raise ImportError;
          pyproj := Raise ImportError;
          shapely := Raise ImportError;
          geopandas := Raise ImportError;
          rioxarray := Raise ImportError;
          odc_geo := Raise ImportError |} []
     = Raise TypeError.
Proof. split; reflexivity. Qed.
